(** * InovaFinance ledger: balance, credit and due-date logic

    A shallow embedding of the local ledger of [src/src/lib/db.ts] (Dexie
    tables [profiles] and [transactions], [getProfile], [addTransaction],
    [calculateBalance]), of the confirmation path [confirmTransaction] and of
    the credit due-date computation of [src/src/pages/AI.tsx], of the card
    screen's [loadData] and of the goal progress of [src/src/pages/Login.tsx].

    JavaScript numbers are modelled by [num]: finite values are exact
    canonical rationals ([Qc]), next to the special values +Infinity,
    -Infinity and NaN.  Binary64 rounding and the sign of zero are not
    modelled by [num]; the last section replays the credit check's
    arithmetic with binary64 round-to-nearest-even. *)

From Stdlib Require Import ZArith QArith Qcanon List String Bool Lia.
From Stdlib Require Import Permutation Sorted.
Import ListNotations.

Open Scope Z_scope.

(** ** JavaScript numbers *)

Inductive num : Type :=
| Fin (q : Qc)
| PInf
| NInf
| NaN.

Definition zero : num := Fin (Q2Qc 0).

(** Literal [n] (an integer). *)
Definition lit (n : Z) : num := Fin (Q2Qc (inject_Z n)).

(** [a + b] *)
Definition num_add (a b : num) : num :=
  match a, b with
  | NaN, _ | _, NaN => NaN
  | Fin p, Fin q => Fin (p + q)%Qc
  | PInf, NInf | NInf, PInf => NaN
  | PInf, _ | _, PInf => PInf
  | NInf, _ | _, NInf => NInf
  end.

(** unary [-b] *)
Definition num_neg (b : num) : num :=
  match b with
  | Fin q => Fin (- q)%Qc
  | PInf => NInf
  | NInf => PInf
  | NaN => NaN
  end.

(** [a - b] *)
Definition num_sub (a b : num) : num := num_add a (num_neg b).

(** [a > b]: false as soon as one side is NaN. *)
Definition num_gt (a b : num) : bool :=
  match a, b with
  | NaN, _ | _, NaN => false
  | Fin p, Fin q => match (p ?= q)%Qc with Gt => true | _ => false end
  | PInf, PInf => false
  | PInf, _ => true
  | _, NInf => match a with NInf => false | _ => true end
  | _, _ => false
  end.

(** [a <= b]: for numbers [!(a > b)] unless one side is NaN. *)
Definition num_le (a b : num) : bool :=
  match a, b with
  | NaN, _ | _, NaN => false
  | _, _ => negb (num_gt a b)
  end.

(** [isNaN(a)] *)
Definition isNaN (a : num) : bool :=
  match a with NaN => true | _ => false end.

(** Truthiness of a number: [0] and [NaN] are falsy. *)
Definition num_truthy (a : num) : bool :=
  match a with
  | Fin q => negb (Qc_eq_bool q 0%Qc)
  | NaN => false
  | _ => true
  end.

(** [a || d] on numbers. *)
Definition num_or (a d : num) : num := if num_truthy a then a else d.

(** ** Data model (db.ts) *)

Inductive TxType : Type := Income | Expense.

Inductive PaymentMethod : Type := Debit | Credit.

Module Profile.
Record t : Type := mk {
  id : Z;
  userId : string;
  fullName : string;
  initialBalance : num;
  creditLimit : num;
  creditUsed : num;
  creditDueDay : option Z
}.

(** The record after [update(id, { creditUsed: v })]. *)
Definition set_creditUsed (p : t) (v : num) : t :=
  mk (id p) (userId p) (fullName p) (initialBalance p) (creditLimit p) v
     (creditDueDay p).
End Profile.

Module Transaction.
(** [paymentMethod] is optional: legacy records may lack it. *)
Record t : Type := mk {
  amount : num;
  type : TxType;
  paymentMethod : option PaymentMethod;
  category : string;
  description : string;
  date : Z;
  userId : string
}.
End Transaction.

(** The Dexie database: the [profiles] table (each record with its
    auto-increment primary key [Profile.id]) and the [transactions] table as
    (primary key, record) pairs, both in primary-key order. *)
Record DB : Type := mkDB {
  profiles : list Profile.t;
  transactions : list (Z * Transaction.t)
}.

(** [db.profiles.where('userId').equals(userId).first()] *)
Definition getProfile (db : DB) (u : string) : option Profile.t :=
  find (fun p => String.eqb (Profile.userId p) u) (profiles db).

(** [db.profiles.update(id, { creditUsed: v })] *)
Definition update_creditUsed (db : DB) (key : Z) (v : num) : DB :=
  mkDB (map (fun p => if Z.eqb (Profile.id p) key
                      then Profile.set_creditUsed p v else p) (profiles db))
       (transactions db).

(** Next auto-increment key of the transactions table. *)
Definition next_tx_key (db : DB) : Z :=
  1 + fold_left (fun m kt => Z.max m (fst kt)) (transactions db) 0.

(** [db.transactions.add(transaction)]: returns the new key. *)
Definition add_tx (db : DB) (tx : Transaction.t) : Z * DB :=
  let k := next_tx_key db in
  (k, mkDB (profiles db) (transactions db ++ [(k, tx)])).

(** Insertion into a list sorted by descending [date]. *)
Fixpoint insert_by_date_desc (tx : Transaction.t) (l : list Transaction.t)
  : list Transaction.t :=
  match l with
  | [] => [tx]
  | x :: r => if Z.ltb (Transaction.date x) (Transaction.date tx)
              then tx :: x :: r
              else x :: insert_by_date_desc tx r
  end.

(** [getTransactions]: the user's transactions,
    [.reverse().sortBy('date')], newest first. *)
Definition getTransactions (db : DB) (u : string) : list Transaction.t :=
  fold_right insert_by_date_desc []
    (filter (fun tx => String.eqb (Transaction.userId tx) u)
            (map snd (transactions db))).

(** [addTransaction]: a credit expense first bumps the owner's [creditUsed]
    (when a profile with a truthy id exists), then the record is added. *)
Definition addTransaction (db : DB) (tx : Transaction.t) : Z * DB :=
  let db1 :=
    match Transaction.type tx, Transaction.paymentMethod tx with
    | Expense, Some Credit =>
        match getProfile db (Transaction.userId tx) with
        | Some p =>
            if negb (Z.eqb (Profile.id p) 0)
            then update_creditUsed db (Profile.id p)
                   (num_add (num_or (Profile.creditUsed p) zero)
                            (Transaction.amount tx))
            else db
        | None => db
        end
    | _, _ => db
    end in
  add_tx db1 tx.

(** A sequence of [addTransaction] calls. *)
Definition addTransactions (db : DB) (txs : list Transaction.t) : DB :=
  fold_left (fun d tx => snd (addTransaction d tx)) txs db.

Record BalanceResult : Type := mkBalance {
  balance : num;
  totalIncome : num;
  totalExpense : num;
  debitBalance : num;
  creditUsed : num
}.

(** One iteration of the [transactions.forEach] loop of [calculateBalance]
    on the accumulators [(totalIncome, totalExpense, debitExpense)]. *)
Definition balance_step (acc : num * num * num) (t : Transaction.t)
  : num * num * num :=
  let '(ti, te, de) := acc in
  match Transaction.type t with
  | Income => (num_add ti (Transaction.amount t), te, de)
  | Expense =>
      let de' :=
        match Transaction.paymentMethod t with
        | Some Debit | None => num_add de (Transaction.amount t)
        | Some Credit => de
        end in
      (ti, num_add te (Transaction.amount t), de')
  end.

Definition calculateBalance (db : DB) (u : string) (initialBalance : num)
  : BalanceResult :=
  let txs := getTransactions db u in
  let profile := getProfile db u in
  let '(ti, te, de) := fold_left balance_step txs (zero, zero, zero) in
  let debitBalance := num_sub (num_add initialBalance ti) de in
  mkBalance (num_sub (num_add initialBalance ti) te) ti te debitBalance
    (match profile with
     | Some p => num_or (Profile.creditUsed p) zero
     | None => zero
     end).

(** ** Sums over transaction lists (the spec's vocabulary) *)

Definition sum_amounts (l : list Transaction.t) : num :=
  fold_right (fun t s => num_add (Transaction.amount t) s) zero l.

Definition is_income (t : Transaction.t) : bool :=
  match Transaction.type t with Income => true | Expense => false end.

Definition is_expense (t : Transaction.t) : bool :=
  match Transaction.type t with Income => false | Expense => true end.

(** Expenses paid by debit, or with no payment method recorded. *)
Definition is_debit_expense (t : Transaction.t) : bool :=
  match Transaction.type t, Transaction.paymentMethod t with
  | Expense, Some Debit | Expense, None => true
  | _, _ => false
  end.

Definition is_credit_expense (t : Transaction.t) : bool :=
  match Transaction.type t, Transaction.paymentMethod t with
  | Expense, Some Credit => true
  | _, _ => false
  end.

(** ** Algebra of [num] addition *)

Lemma num_add_comm (a b : num) : num_add a b = num_add b a.
Proof.
  destruct a, b; simpl; try reflexivity. f_equal; ring.
Qed.

Lemma num_add_assoc (a b c : num) :
  num_add a (num_add b c) = num_add (num_add a b) c.
Proof.
  destruct a, b, c; simpl; try reflexivity. f_equal; ring.
Qed.

Lemma num_add_zero_l (a : num) : num_add zero a = a.
Proof.
  destruct a; simpl; try reflexivity. f_equal; unfold zero; ring.
Qed.

Lemma num_add_zero_r (a : num) : num_add a zero = a.
Proof. rewrite num_add_comm; apply num_add_zero_l. Qed.

Lemma balance_loop (l : list Transaction.t) (a b c : num) :
  fold_left balance_step l (a, b, c) =
  (num_add a (sum_amounts (filter is_income l)),
   num_add b (sum_amounts (filter is_expense l)),
   num_add c (sum_amounts (filter is_debit_expense l))).
Proof.
  revert a b c; induction l as [|t l IH]; intros a b c; simpl.
  - rewrite !num_add_zero_r; reflexivity.
  - unfold is_income at 1, is_expense at 1, is_debit_expense at 1.
    destruct (Transaction.type t) eqn:Ety.
    + rewrite IH; simpl; rewrite num_add_assoc; reflexivity.
    + destruct (Transaction.paymentMethod t) as [[|]|] eqn:Epm;
        rewrite IH; simpl; rewrite ?num_add_assoc; reflexivity.
Qed.

(** Equality of two finite literals, checked on their canonical forms. *)
Ltac num_lit :=
  vm_compute;
  repeat match goal with
         | |- @eq Qc _ _ => apply Qc_is_canon; vm_compute; reflexivity
         | |- _ = _ => progress f_equal
         end.

(** ** Concrete ledgers *)

Definition tx_of (a : Z) (ty : TxType) (pm : option PaymentMethod)
  (cat : string) (d : Z) (u : string) : Transaction.t :=
  Transaction.mk (lit a) ty pm cat "" d u.

(** Scenario 1 of the spec: an income of 500 and a debit food expense of
    200 for user "1". *)
Definition scenario1_db : DB :=
  mkDB []
    [(1, tx_of 500 Income (Some Debit) "salary" 1 "1");
     (2, tx_of 200 Expense (Some Debit) "food" 2 "1")].

(** ** Balance calculator *)

(** C1: [calculateBalance] accumulates [totalIncome] over the income
    transactions, [totalExpense] over all expenses whatever the payment
    method, [balance = initialBalance + totalIncome - totalExpense] and
    [debitBalance = initialBalance + totalIncome - debitExpense] with
    [debitExpense] the sum over expenses paid by debit or with no payment
    method; with initial balance 1000, an income of 500 and a debit expense
    of 200, both balances are 1300. *)
Theorem calculateBalance_identity :
  (forall (db : DB) (u : string) (ib : num),
     let r := calculateBalance db u ib in
     let txs := getTransactions db u in
     totalIncome r = sum_amounts (filter is_income txs) /\
     totalExpense r = sum_amounts (filter is_expense txs) /\
     balance r = num_sub (num_add ib (totalIncome r)) (totalExpense r) /\
     debitBalance r =
       num_sub (num_add ib (totalIncome r))
               (sum_amounts (filter is_debit_expense txs))) /\
  balance (calculateBalance scenario1_db "1" (lit 1000)) = lit 1300 /\
  debitBalance (calculateBalance scenario1_db "1" (lit 1000)) = lit 1300.
Proof.
  split; [|split; num_lit].
  intros db u ib r txs; subst r txs.
  unfold calculateBalance.
  rewrite balance_loop, !num_add_zero_l; simpl.
  repeat split.
Qed.

(** ** Facts about the profiles table *)

Definition profile_ids (db : DB) : list Z := map Profile.id (profiles db).

(** The transactions of [u] that [addTransaction] charges to [u]'s credit. *)
Definition credit_of (u : string) (t : Transaction.t) : bool :=
  String.eqb (Transaction.userId t) u && is_credit_expense t.

Lemma find_map_option {A : Type} (f : A -> A) (P : A -> bool) (l : list A) :
  (forall x, P (f x) = P x) -> find P (map f l) = option_map f (find P l).
Proof.
  intros HP; induction l as [|x l IH]; simpl; [reflexivity|].
  rewrite HP; destruct (P x); [reflexivity|exact IH].
Qed.

Lemma getProfile_update (db : DB) (key : Z) (v : num) (u : string) :
  getProfile (update_creditUsed db key v) u =
  option_map (fun p => if Z.eqb (Profile.id p) key
                       then Profile.set_creditUsed p v else p)
             (getProfile db u).
Proof.
  unfold getProfile, update_creditUsed; simpl.
  apply find_map_option; intros x; destruct (Z.eqb _ _); reflexivity.
Qed.

Lemma profile_ids_update (db : DB) (key : Z) (v : num) :
  profile_ids (update_creditUsed db key v) = profile_ids db.
Proof.
  unfold profile_ids, update_creditUsed; simpl.
  rewrite map_map; apply map_ext; intros x; destruct (Z.eqb _ _); reflexivity.
Qed.

Lemma profiles_add_tx (db : DB) (tx : Transaction.t) :
  profiles (snd (add_tx db tx)) = profiles db.
Proof. reflexivity. Qed.

Lemma nodup_ids_inj (l : list Profile.t) (p q : Profile.t) :
  NoDup (map Profile.id l) -> In p l -> In q l -> Profile.id p = Profile.id q ->
  p = q.
Proof.
  induction l as [|x l IH]; simpl; intros Hnd Hp Hq Hid; [contradiction|].
  inversion Hnd as [|? ? Hnotin Hnd']; subst.
  destruct Hp as [<-|Hp], Hq as [<-|Hq]; auto.
  - exfalso; apply Hnotin; rewrite Hid; apply in_map; exact Hq.
  - exfalso; apply Hnotin; rewrite <- Hid; apply in_map; exact Hp.
Qed.

Lemma num_or_fin (c : Qc) : num_or (Fin c) zero = Fin c.
Proof.
  unfold num_or, num_truthy, Qc_eq_bool.
  destruct (Qc_eq_dec c 0%Qc) as [->|]; reflexivity.
Qed.

Lemma set_creditUsed_id (p : Profile.t) (v : num) :
  Profile.id (Profile.set_creditUsed p v) = Profile.id p.
Proof. reflexivity. Qed.

Lemma set_creditUsed_twice (p : Profile.t) (v w : num) :
  Profile.set_creditUsed (Profile.set_creditUsed p v) w =
  Profile.set_creditUsed p w.
Proof. reflexivity. Qed.

Lemma set_creditUsed_get (p : Profile.t) (v : num) :
  Profile.creditUsed (Profile.set_creditUsed p v) = v.
Proof. reflexivity. Qed.

Lemma getProfile_add_tx (db : DB) (tx : Transaction.t) (u : string) :
  getProfile (snd (add_tx db tx)) u = getProfile db u.
Proof. reflexivity. Qed.

Lemma profile_ids_add_tx (db : DB) (tx : Transaction.t) :
  profile_ids (snd (add_tx db tx)) = profile_ids db.
Proof. reflexivity. Qed.

(** One [addTransaction] seen from the profile of [u]. *)
Lemma addTransaction_profile (db : DB) (u : string) (p : Profile.t)
  (c : Qc) (t : Transaction.t) :
  NoDup (profile_ids db) -> getProfile db u = Some p ->
  Profile.id p <> 0 -> Profile.creditUsed p = Fin c ->
  getProfile (snd (addTransaction db t)) u =
    Some (if credit_of u t
          then Profile.set_creditUsed p (num_add (Fin c) (Transaction.amount t))
          else p) /\
  NoDup (profile_ids (snd (addTransaction db t))).
Proof.
  intros Hnd Hp Hid Hc.
  unfold addTransaction; rewrite getProfile_add_tx, profile_ids_add_tx.
  unfold credit_of, is_credit_expense.
  destruct (Transaction.type t), (Transaction.paymentMethod t) as [[|]|];
    cbn -[getProfile update_creditUsed profile_ids];
    rewrite ?andb_false_r; try (split; assumption).
  rewrite andb_true_r.
  destruct (String.eqb_spec (Transaction.userId t) u) as [Eu|Nu].
  - rewrite Eu, Hp.
    apply Z.eqb_neq in Hid; rewrite Hid; cbn -[getProfile update_creditUsed profile_ids].
    rewrite getProfile_update, profile_ids_update, Hp; cbn [option_map].
    rewrite Z.eqb_refl, Hc, num_or_fin; split; [reflexivity|exact Hnd].
  - destruct (getProfile db (Transaction.userId t)) as [q|] eqn:Hq;
      [|split; assumption].
    destruct (negb (Z.eqb (Profile.id q) 0)); [|split; assumption].
    rewrite getProfile_update, profile_ids_update, Hp; simpl.
    split; [|exact Hnd].
    destruct (Z.eqb_spec (Profile.id p) (Profile.id q)) as [E|]; [|reflexivity].
    exfalso.
    unfold getProfile in Hp, Hq.
    apply find_some in Hp as [Inp Up]; apply find_some in Hq as [Inq Uq].
    rewrite (nodup_ids_inj _ p q Hnd Inp Inq E) in Up.
    apply String.eqb_eq in Up, Uq; congruence.
Qed.

(** ** Credit bookkeeping of the write path *)

(** C2: along any sequence of [addTransaction] calls, the [creditUsed] of
    the profile of [u] grows by exactly the sum of the amounts of [u]'s
    credit expenses in the sequence; an insertion that is not a credit
    expense leaves the whole profiles table unchanged; and a single call
    that inserts a credit expense of [u] both appends the record and
    increments the counter. Profiles have distinct primary keys, the
    profile's key is set and its counter is a number; amounts are finite. *)
Theorem addTransactions_creditUsed (db : DB) (u : string) (p : Profile.t)
  (c : Qc) (txs : list Transaction.t) :
  NoDup (profile_ids db) -> getProfile db u = Some p ->
  Profile.id p <> 0 -> Profile.creditUsed p = Fin c ->
  (forall t, In t txs -> credit_of u t = true ->
             exists a, Transaction.amount t = Fin a) ->
  getProfile (addTransactions db txs) u =
    Some (Profile.set_creditUsed p
            (num_add (Profile.creditUsed p)
                     (sum_amounts (filter (credit_of u) txs)))) /\
  (forall t, is_credit_expense t = false ->
             profiles (snd (addTransaction db t)) = profiles db) /\
  (forall t a, credit_of u t = true -> Transaction.amount t = Fin a ->
     transactions (snd (addTransaction db t)) =
       transactions db ++ [(fst (addTransaction db t), t)] /\
     getProfile (snd (addTransaction db t)) u =
       Some (Profile.set_creditUsed p
               (num_add (Profile.creditUsed p) (Transaction.amount t)))).
Proof.
  intros Hnd Hp Hid Hc Hfin.
  split; [|split].
  - revert db p c Hnd Hp Hid Hc.
    induction txs as [|t txs IH]; intros db p c Hnd Hp Hid Hc.
    + simpl; rewrite Hc, num_add_zero_r, Hp; f_equal.
      destruct p; simpl in Hc |- *; subst; reflexivity.
    + cbn [addTransactions fold_left].
      change (fold_left (fun d tx => snd (addTransaction d tx)) txs
                (snd (addTransaction db t)))
        with (addTransactions (snd (addTransaction db t)) txs).
      destruct (addTransaction_profile db u p c t Hnd Hp Hid Hc) as [Hp1 Hnd1].
      simpl filter.
      destruct (credit_of u t) eqn:Ecr.
      * destruct (Hfin t (or_introl eq_refl) Ecr) as [a Ha].
        rewrite Ha in Hp1.
        rewrite (IH (fun t' Hin => Hfin t' (or_intror Hin)) _ _ (c + a)%Qc
                   Hnd1 Hp1 Hid eq_refl).
        rewrite set_creditUsed_twice, set_creditUsed_get, Hc.
        unfold sum_amounts; cbn [fold_right]; rewrite Ha, num_add_assoc.
        reflexivity.
      * exact (IH (fun t' Hin => Hfin t' (or_intror Hin)) _ _ c
                 Hnd1 Hp1 Hid Hc).
  - intros t Ht.
    unfold addTransaction, is_credit_expense in *.
    destruct (Transaction.type t), (Transaction.paymentMethod t) as [[|]|];
      try discriminate; reflexivity.
  - intros t a Hcr Ha.
    destruct (addTransaction_profile db u p c t Hnd Hp Hid Hc) as [Hp1 _].
    rewrite Hcr, <- Hc in Hp1; split; [|exact Hp1].
    unfold addTransaction; destruct (Transaction.type t);
      [|destruct (Transaction.paymentMethod t) as [[|]|]];
      [reflexivity| reflexivity | | reflexivity].
    destruct (getProfile db (Transaction.userId t)) as [q|];
      [destruct (negb _)|]; reflexivity.
Qed.

(** C10: a credit expense whose owner has no profile is still appended,
    and the profiles table is left exactly as it was: the spending is
    recorded in no [creditUsed] counter. *)
Theorem addTransaction_no_profile (db : DB) (t : Transaction.t) :
  Transaction.type t = Expense ->
  Transaction.paymentMethod t = Some Credit ->
  getProfile db (Transaction.userId t) = None ->
  let '(k, db') := addTransaction db t in
  profiles db' = profiles db /\ transactions db' = transactions db ++ [(k, t)].
Proof.
  intros Hty Hpm Hnone; unfold addTransaction.
  rewrite Hty, Hpm, Hnone; split; reflexivity.
Qed.

Lemma num_sub_zero_r (a : num) : num_sub a zero = a.
Proof.
  unfold num_sub; replace (num_neg zero) with zero; [apply num_add_zero_r|].
  unfold zero; simpl; f_equal; ring.
Qed.

(** An empty database. *)
Definition empty_db : DB := mkDB [] [].

(** Distinguishes two numbers by the numerator of their finite values. *)
Definition fin_num (n : num) : Z :=
  match n with Fin q => Qnum (this q) | _ => 0 end.

(** C9 (as stated, refuted): a user with no profile and no transaction,
    queried with initial balance 1000, does not get the zero-valued result:
    its [balance] is 1000. *)
Lemma calculateBalance_absent_not_zero :
  calculateBalance empty_db "42" (lit 1000) <>
  mkBalance zero zero zero zero zero /\
  balance (calculateBalance empty_db "42" (lit 1000)) = lit 1000.
Proof.
  split; [|num_lit].
  intros H; apply (f_equal (fun r => fin_num (balance r))) in H.
  vm_compute in H; discriminate.
Qed.

(** C9 (amended): [calculateBalance] is a total function; for a user with no
    profile the reported [creditUsed] is 0, and when that user also has no
    transaction the totals are 0 while [balance] and [debitBalance] are the
    caller's [initialBalance] argument. *)
Theorem calculateBalance_absent_profile (db : DB) (u : string) (ib : num) :
  getProfile db u = None ->
  creditUsed (calculateBalance db u ib) = zero /\
  (getTransactions db u = [] ->
   totalIncome (calculateBalance db u ib) = zero /\
   totalExpense (calculateBalance db u ib) = zero /\
   balance (calculateBalance db u ib) = ib /\
   debitBalance (calculateBalance db u ib) = ib).
Proof.
  intros Hnone; unfold calculateBalance; rewrite Hnone.
  rewrite balance_loop; split; [reflexivity|].
  intros Htx; rewrite Htx; simpl.
  rewrite !num_add_zero_r, !num_sub_zero_r; repeat split.
Qed.

(** ** Concrete stores for the witnesses *)

Definition profile_of (key : Z) (u : string) (limit used : Z) : Profile.t :=
  Profile.mk key u "Ana" (lit 1000) (lit limit) (lit used) (Some 5).

Definition one_profile_db (limit used : Z) : DB :=
  mkDB [profile_of 1 "1" limit used] [].

Lemma addTransactions_creditUsed_witness :
  getProfile (addTransactions (one_profile_db 5000 0)
                [tx_of 300 Expense (Some Credit) "food" 1 "1"]) "1" =
    Some (Profile.set_creditUsed (profile_of 1 "1" 5000 0)
            (num_add (lit 0)
               (sum_amounts (filter (credit_of "1")
                  [tx_of 300 Expense (Some Credit) "food" 1 "1"])))) /\
  (forall t, is_credit_expense t = false ->
     profiles (snd (addTransaction (one_profile_db 5000 0) t)) =
     profiles (one_profile_db 5000 0)) /\
  (forall t a, credit_of "1" t = true -> Transaction.amount t = Fin a ->
     transactions (snd (addTransaction (one_profile_db 5000 0) t)) =
       transactions (one_profile_db 5000 0) ++
         [(fst (addTransaction (one_profile_db 5000 0) t), t)] /\
     getProfile (snd (addTransaction (one_profile_db 5000 0) t)) "1" =
       Some (Profile.set_creditUsed (profile_of 1 "1" 5000 0)
               (num_add (lit 0) (Transaction.amount t)))).
Proof.
  apply (addTransactions_creditUsed (one_profile_db 5000 0) "1"
           (profile_of 1 "1" 5000 0) (Q2Qc (inject_Z 0))).
  - constructor; [intros []|constructor].
  - reflexivity.
  - discriminate.
  - reflexivity.
  - intros t [<-|[]] _; eexists; reflexivity.
Defined.

Lemma addTransaction_no_profile_witness :
  let '(k, db') := addTransaction empty_db
                     (tx_of 300 Expense (Some Credit) "food" 1 "7") in
  profiles db' = profiles empty_db /\
  transactions db' = transactions empty_db ++
                       [(k, tx_of 300 Expense (Some Credit) "food" 1 "7")].
Proof.
  apply (addTransaction_no_profile empty_db
           (tx_of 300 Expense (Some Credit) "food" 1 "7"));
    reflexivity.
Defined.

Lemma calculateBalance_absent_profile_witness :
  creditUsed (calculateBalance empty_db "42" (lit 1000)) = zero /\
  totalIncome (calculateBalance empty_db "42" (lit 1000)) = zero /\
  totalExpense (calculateBalance empty_db "42" (lit 1000)) = zero /\
  balance (calculateBalance empty_db "42" (lit 1000)) = lit 1000 /\
  debitBalance (calculateBalance empty_db "42" (lit 1000)) = lit 1000.
Proof.
  destruct (calculateBalance_absent_profile empty_db "42" (lit 1000) eq_refl)
    as [H1 H2].
  split; [exact H1|]; apply H2; reflexivity.
Defined.

(** ** [parseFloat] (ECMAScript) *)

(** Leading white space skipped by [parseFloat]: tab, line feed, vertical
    tab, form feed, carriage return and space. *)
Definition is_ws (c : Ascii.ascii) : bool :=
  match Ascii.nat_of_ascii c with
  | 9 | 10 | 11 | 12 | 13 | 32 => true
  | _ => false
  end%nat.

Fixpoint skip_ws (s : string) : string :=
  match s with
  | String c r => if is_ws c then skip_ws r else s
  | EmptyString => s
  end.

Definition digit_val (c : Ascii.ascii) : option Z :=
  let n := Z.of_nat (Ascii.nat_of_ascii c) in
  if (48 <=? n) && (n <=? 57) then Some (n - 48) else None.

(** The longest run of decimal digits, accumulated onto [acc]: the value,
    the number of digits read and the rest of the string. *)
Fixpoint read_digits (s : string) (acc : Z) (n : nat) : Z * nat * string :=
  match s with
  | String c r =>
      match digit_val c with
      | Some d => read_digits r (10 * acc + d) (S n)
      | None => (acc, n, s)
      end
  | EmptyString => (acc, n, s)
  end.

Definition char_is (c : Ascii.ascii) (code : nat) : bool :=
  Nat.eqb (Ascii.nat_of_ascii c) code.

(** Optional exponent part [e[+|-]digits]; without digits it is not part of
    the literal. *)
Definition read_exponent (s : string) : Z :=
  match s with
  | String c r =>
      if char_is c 101 || char_is c 69 then
        let '(neg, r') :=
          match r with
          | String c' r'' =>
              if char_is c' 43 then (false, r'')
              else if char_is c' 45 then (true, r'') else (false, r)
          | EmptyString => (false, r)
          end in
        let '(e, ne, _) := read_digits r' 0 0 in
        if Nat.eqb ne 0 then 0 else if neg then - e else e
      else 0
  | EmptyString => 0
  end.

(** Magnitudes from [2^1024 - 2^970] on round to Infinity in binary64. *)
Definition overflow_bound : Z := 2 ^ 1024 - 2 ^ 970.

(** [parseFloat(s)]: the value of the longest prefix of the trimmed string
    that is a StrDecimalLiteral, NaN when there is none. *)
Definition parseFloat (s : string) : num :=
  let s1 := skip_ws s in
  let '(neg, s2) :=
    match s1 with
    | String c r =>
        if char_is c 43 then (false, r)
        else if char_is c 45 then (true, r) else (false, s1)
    | EmptyString => (false, s1)
    end in
  if String.prefix "Infinity" s2 then (if neg then NInf else PInf) else
  let '(m, ni, s3) := read_digits s2 0 0 in
  let '(m', nf, s4) :=
    match s3 with
    | String c r => if char_is c 46 then read_digits r m 0 else (m, 0%nat, s3)
    | EmptyString => (m, 0%nat, s3)
    end in
  if Nat.eqb (ni + nf) 0 then NaN else
  let k := read_exponent s4 - Z.of_nat nf in
  let big := if 0 <=? k then overflow_bound <=? m' * 10 ^ k
             else overflow_bound * 10 ^ (- k) <=? m' in
  if big then (if neg then NInf else PInf) else
  let q := if 0 <=? k then inject_Z (m' * 10 ^ k)
           else Qmake m' (Z.to_pos (10 ^ (- k))) in
  Fin (Q2Qc (if neg then Qopp q else q)).

(** ** Confirmation of a pending transaction (AI.tsx) *)

Record PendingTransaction : Type := mkPending {
  pt_amount : num;
  pt_type : TxType;
  pt_paymentMethod : PaymentMethod;
  pt_category : string;
  pt_description : string
}.

(** The React state the handler reads: the auth context's [user] snapshot,
    the pending transaction and the amount editor. *)
Record Session : Type := mkSession {
  user : option Profile.t;
  store : DB
}.

Record ConfirmUI : Type := mkUI {
  pendingTransaction : option PendingTransaction;
  editingAmount : bool;
  editedAmount : string
}.

Inductive Outcome : Type :=
| NoAction
| InvalidAmount                    (* toast 'Valor inválido' *)
| InsufficientCredit (available : num)
| Recorded (key : Z).

(** [refreshUser]: reload the user snapshot from the store. *)
Definition refreshUser (s : Session) : Session :=
  match user s with
  | Some usr =>
      if String.eqb (Profile.userId usr) "" then s else
      match getProfile (store s) (Profile.userId usr) with
      | Some p => mkSession (Some p) (store s)
      | None => s
      end
  | None => s
  end.

Definition final_amount (ui : ConfirmUI) (pt : PendingTransaction) : num :=
  if editingAmount ui then parseFloat (editedAmount ui) else pt_amount pt.

(** [(user.creditLimit || 5000) - (user.creditUsed || 0)] *)
Definition availableCredit (usr : Profile.t) : num :=
  num_sub (num_or (Profile.creditLimit usr) (lit 5000))
          (num_or (Profile.creditUsed usr) zero).

(** The record handed to [addTransaction]. *)
Definition confirmed_tx (usr : Profile.t) (pt : PendingTransaction)
  (amount : num) (now : Z) : Transaction.t :=
  Transaction.mk amount (pt_type pt)
    (Some (match pt_type pt with
           | Expense => pt_paymentMethod pt
           | Income => Debit
           end))
    (pt_category pt) (pt_description pt) now (Profile.userId usr).

Definition commit (s : Session) (usr : Profile.t) (pt : PendingTransaction)
  (amount : num) (now : Z) : Outcome * Session :=
  let '(k, db') := addTransaction (store s) (confirmed_tx usr pt amount now) in
  (Recorded k, refreshUser (mkSession (user s) db')).

Definition confirmTransaction (s : Session) (ui : ConfirmUI) (now : Z)
  : Outcome * Session :=
  match pendingTransaction ui, user s with
  | Some pt, Some usr =>
      let finalAmount := final_amount ui pt in
      if isNaN finalAmount || num_le finalAmount zero then (InvalidAmount, s)
      else
        match pt_type pt, pt_paymentMethod pt with
        | Expense, Credit =>
            if num_gt finalAmount (availableCredit usr)
            then (InsufficientCredit (availableCredit usr), s)
            else commit s usr pt finalAmount now
        | _, _ => commit s usr pt finalAmount now
        end
  | _, _ => (NoAction, s)
  end.

(** ** Facts about comparisons *)

Lemma num_gt_fin_false (a b : Qc) :
  num_gt (Fin a) (Fin b) = false -> (a <= b)%Qc.
Proof.
  rewrite Qcle_alt; unfold num_gt, Qccompare.
  destruct (Qcompare a b); discriminate || congruence.
Qed.

Lemma num_le_fin (a b : Qc) : (a <= b)%Qc -> num_le (Fin a) (Fin b) = true.
Proof.
  rewrite Qcle_alt; unfold num_le, num_gt, Qccompare.
  destruct (Qcompare a b); [reflexivity|reflexivity|].
  intros H; contradiction H; reflexivity.
Qed.

Lemma store_refreshUser (s : Session) : store (refreshUser s) = store s.
Proof.
  unfold refreshUser; destruct (user s) as [usr|]; [|reflexivity].
  destruct (String.eqb _ _); [reflexivity|].
  destruct (getProfile _ _); reflexivity.
Qed.

(** ** Concrete sessions *)

Definition pending_of (a : Z) (ty : TxType) (pm : PaymentMethod)
  (cat : string) : PendingTransaction :=
  mkPending (lit a) ty pm cat "".

Definition session_of (limit used : Z) : Session :=
  mkSession (Some (profile_of 1 "1" limit used)) (one_profile_db limit used).

(** Confirming the pending transaction as proposed, amount not edited. *)
Definition ui_of (pt : PendingTransaction) : ConfirmUI :=
  mkUI (Some pt) false "".

(** Spec scenario 2: limit 5000, nothing used; a 300 credit food expense is
    recorded, then a 4800 credit shopping expense is refused. *)
Definition scenario2 : Outcome * Outcome * num :=
  let '(o1, s1) :=
    confirmTransaction (session_of 5000 0)
      (ui_of (pending_of 300 Expense Credit "food")) 1 in
  let '(o2, _) :=
    confirmTransaction s1 (ui_of (pending_of 4800 Expense Credit "shopping")) 2 in
  (o1, o2, match user s1 with Some p => Profile.creditUsed p | None => NaN end).

(** ** Credit check at confirmation *)

(** The session and editor of the C7 failing input: a pending debit food
    expense of 50 whose amount the user edits to "1e400". *)
Definition c7_ui : ConfirmUI :=
  mkUI (Some (pending_of 50 Expense Debit "food")) true "1e400".

(** C7 (code defect): [parseFloat("1e400")] and [parseFloat("Infinity")]
    are +Infinity; the check [isNaN(finalAmount) || finalAmount <= 0] lets
    +Infinity through, and the debit expense is stored with amount
    +Infinity. *)
Theorem confirmTransaction_accepts_infinite_amount :
  parseFloat "1e400" = PInf /\ parseFloat "Infinity" = PInf /\
  fst (confirmTransaction (session_of 5000 0) c7_ui 1) = Recorded 1 /\
  map (fun kt => Transaction.amount (snd kt))
      (transactions (store (snd (confirmTransaction (session_of 5000 0) c7_ui 1))))
    = [PInf].
Proof. repeat split; vm_compute; reflexivity. Qed.

(** ** The card screen's [loadData] (rollover observation point) *)

(** The card page: the session and its local [creditUsed] state. *)
Record CardState : Type := mkCard {
  session : Session;
  card_creditUsed : num
}.

(** [loadData]: refresh the user, then read [creditUsed] through
    [calculateBalance] with the render-time [user]. No clock is read and
    nothing is written. *)
Definition loadData (cs : CardState) : CardState :=
  match user (session cs) with
  | None => cs
  | Some usr =>
      let s1 := refreshUser (session cs) in
      let r := calculateBalance (store s1) (Profile.userId usr)
                 (Profile.initialBalance usr) in
      mkCard s1 (creditUsed r)
  end.

(** A card page whose user has 300 of credit used and due day 5. *)
Definition card_300 : CardState :=
  mkCard (session_of 5000 300) (lit 0).

(** C3 (as stated, refuted): running the card's check, once or twice,
    leaves the stored [creditUsed] at 300; no code resets it to 0. *)
Lemma loadData_no_reset :
  match getProfile (store (session (loadData card_300))) "1" with
  | Some p => Profile.creditUsed p
  | None => NaN
  end = lit 300 /\
  match getProfile (store (session (loadData (loadData card_300)))) "1" with
  | Some p => Profile.creditUsed p
  | None => NaN
  end = lit 300 /\
  lit 300 <> zero.
Proof.
  split; [|split].
  - reflexivity.
  - reflexivity.
  - intros H; apply (f_equal fin_num) in H; vm_compute in H; discriminate.
Qed.

(** The check leaves the store untouched, so every profile's [creditUsed]
    keeps its value however many times it runs, and the card shows the
    stored counter ([creditUsed || 0]) of the user's profile. *)
Lemma loadData_store_unchanged (cs : CardState) :
  store (session (loadData cs)) = store (session cs) /\
  (forall n, store (session (Nat.iter n loadData cs)) = store (session cs)) /\
  (forall usr p, user (session cs) = Some usr ->
     getProfile (store (session cs)) (Profile.userId usr) = Some p ->
     card_creditUsed (loadData cs) = num_or (Profile.creditUsed p) zero).
Proof.
  assert (H1 : forall c, store (session (loadData c)) = store (session c)).
  { intros c; unfold loadData; destruct (user (session c)); [|reflexivity].
    simpl; apply store_refreshUser. }
  split; [apply H1|split].
  - induction n as [|n IH]; [reflexivity|]; simpl; rewrite H1; exact IH.
  - intros usr p Hu Hp; unfold loadData; rewrite Hu; simpl.
    unfold calculateBalance; rewrite store_refreshUser, Hp.
    destruct (fold_left _ _ _) as [[? ?] ?]; reflexivity.
Qed.


(** ** Dates (ECMAScript time values, local time) *)

Definition msPerDay : Z := 86400000.

(** [DayFromYear(y)] *)
Definition DayFromYear (y : Z) : Z :=
  365 * (y - 1970) + (y - 1969) / 4 - (y - 1901) / 100 + (y - 1601) / 400.

(** [InLeapYear]: 1 in a year of 366 days, 0 otherwise. *)
Definition InLeapYear (y : Z) : Z :=
  if negb (y mod 4 =? 0) then 0
  else if negb (y mod 100 =? 0) then 1
  else if negb (y mod 400 =? 0) then 0
  else 1.

(** Day within the year of the first day of month [mn] (0-based). *)
Definition MonthStart (mn leap : Z) : Z :=
  match mn with
  | 0 => 0 | 1 => 31 | 2 => 59 + leap | 3 => 90 + leap | 4 => 120 + leap
  | 5 => 151 + leap | 6 => 181 + leap | 7 => 212 + leap | 8 => 243 + leap
  | 9 => 273 + leap | 10 => 304 + leap | _ => 334 + leap
  end.


(** [MakeDay(year, month, date)]: months out of range carry into the
    year, dates out of range run into the following months. *)
Definition MakeDay (y m d : Z) : Z :=
  let ym := y + m / 12 in
  let mn := m mod 12 in
  DayFromYear ym + MonthStart mn (InLeapYear ym) + d - 1.

Definition MakeDate (day time : Z) : Z := day * msPerDay + time.

(** A [Date] read through its local-time fields, with the offset of local
    time from UTC in force at that instant ([LocalTime(t) = t + offset]). *)
Record LocalDate : Type := mkDate {
  year : Z;
  month : Z;    (* getMonth(), 0..11 *)
  dayOfMonth : Z;   (* getDate() *)
  timeOfDay : Z;    (* milliseconds since local midnight *)
  utcOffset : Z     (* milliseconds, e.g. -10800000 in UTC-3 *)
}.


(** The local time value of the date's fields. *)
Definition localTime (t : LocalDate) : Z :=
  MakeDate (MakeDay (year t) (month t) (dayOfMonth t)) (timeOfDay t).

(** [getTime()]: the time value, [LocalTime(t) - offset]. *)
Definition getTime (t : LocalDate) : Z := localTime t - utcOffset t.

(** [new Date(y, m, d).getTime()] = [UTC(MakeDate(MakeDay(y, m, d), 0))]:
    the host's time zone [LocalTZA] gives the offset it applies to a local
    time value (the one of the earlier instant where the local time is
    repeated or skipped at a DST change). *)
Definition UTC (LocalTZA : Z -> Z) (l : Z) : Z := l - LocalTZA l.

(** [Math.ceil(n / d)] for a positive divisor. *)
Definition ceil_div (n d : Z) : Z := - ((- n) / d).

(** The local time value of [new Date(year, month, dueDay)], moved to the
    next month when today's date is past [dueDay]. *)
Definition due_local (today : LocalDate) (dueDay : Z) : Z :=
  if dayOfMonth today >? dueDay
  then MakeDate (MakeDay (year today) (month today + 1) dueDay) 0
  else MakeDate (MakeDay (year today) (month today) dueDay) 0.

(** The inlined block of [getFinancialContext] once [dueDay] is known. *)
Definition days_until_due_day (LocalTZA : Z -> Z) (today : LocalDate)
  (dueDay : Z) : Z :=
  let dueDate := UTC LocalTZA (due_local today dueDay) in
  let diffTime := dueDate - getTime today in
  ceil_div diffTime msPerDay.

(** [daysUntilDue] of [getFinancialContext], with
    [dueDay = user.creditDueDay || 5]. *)
Definition daysUntilDue (LocalTZA : Z -> Z) (today : LocalDate)
  (creditDueDay : option Z) : Z :=
  let dueDay := match creditDueDay with
                | Some d => if d =? 0 then 5 else d
                | None => 5
                end in
  days_until_due_day LocalTZA today dueDay.


(** ** Calendar facts *)













(** Sao Paulo (UTC-3 all year), 19 October 2026 at noon, due day 5. *)
Definition sao_paulo (l : Z) : Z := -10800000.

Definition sao_paulo_noon : LocalDate := mkDate 2026 9 19 43200000 (-10800000).


(** ** Goal progress (Login.tsx) *)

Definition num_sign (n : num) : comparison :=
  match n with
  | Fin q => (q ?= 0)%Qc
  | PInf => Gt
  | NInf => Lt
  | NaN => Eq
  end.

Definition sign_mul (a b : comparison) : comparison :=
  match a, b with
  | Eq, _ | _, Eq => Eq
  | Gt, Gt | Lt, Lt => Gt
  | _, _ => Lt
  end.

Definition inf_of_sign (c : comparison) : num :=
  match c with Gt => PInf | Lt => NInf | Eq => NaN end.

(** [a * b] *)
Definition num_mul (a b : num) : num :=
  match a, b with
  | NaN, _ | _, NaN => NaN
  | Fin p, Fin q => Fin (p * q)%Qc
  | _, _ => inf_of_sign (sign_mul (num_sign a) (num_sign b))
  end.

(** [a / b] (a zero divisor counts as +0). *)
Definition num_div (a b : num) : num :=
  match a, b with
  | NaN, _ | _, NaN => NaN
  | Fin p, Fin q =>
      if Qc_eq_bool q 0%Qc then inf_of_sign (num_sign a) else Fin (p / q)%Qc
  | Fin _, _ => zero
  | _, Fin q =>
      inf_of_sign (sign_mul (num_sign a)
                     (if Qc_eq_bool q 0%Qc then Gt else num_sign b))
  | _, _ => NaN
  end.

(** [Math.min(a, b)] *)
Definition num_min (a b : num) : num :=
  match a, b with
  | NaN, _ | _, NaN => NaN
  | _, _ => if num_gt a b then b else a
  end.

(** [a >= b] *)
Definition num_ge (a b : num) : bool :=
  match a, b with
  | NaN, _ | _, NaN => false
  | _, _ => negb (num_gt b a)
  end.

(** [getProgress(current, target)]: a percentage. *)
Definition getProgress (current target : num) : num :=
  num_min (num_mul (num_div current target) (lit 100)) (lit 100).

(** [isCompleted = progress >= 100] *)
Definition isCompleted (progress : num) : bool := num_ge progress (lit 100).

Lemma num_gt_fin (a b : Qc) : num_gt (Fin a) (Fin b) = true <-> (b < a)%Qc.
Proof.
  rewrite Qclt_alt; unfold num_gt, Qccompare; rewrite <- Qcompare_antisym.
  destruct (Qcompare b a); simpl; split; intros H; congruence.
Qed.

Definition hundred : Qc := Q2Qc (inject_Z 100).

Lemma hundred_pos : (0 < hundred)%Qc.
Proof. unfold Qclt; vm_compute; reflexivity. Qed.

Lemma ratio_ge_iff (c t : Qc) :
  (0 < t)%Qc -> (t <= c)%Qc <-> (hundred <= c / t * hundred)%Qc.
Proof.
  intros Ht.
  assert (Htn : t <> 0%Qc) by (apply not_eq_sym, Qclt_not_eq, Ht).
  assert (Hct : (c / t * t)%Qc = c)
    by (rewrite Qcmult_comm; apply Qcmult_div_r, Htn).
  pose proof hundred_pos as H100.
  split; intros H.
  - rewrite <- (Qcmult_1_l hundred) at 1.
    apply Qcmult_le_compat_r; [|apply Qclt_le_weak, H100].
    apply (Qcmult_lt_0_le_reg_r _ _ t Ht).
    rewrite Qcmult_1_l, Hct; exact H.
  - rewrite <- (Qcmult_1_l hundred) in H at 1.
    apply (Qcmult_lt_0_le_reg_r _ _ hundred H100) in H.
    apply (Qcmult_le_compat_r _ _ t) in H; [|apply Qclt_le_weak, Ht].
    rewrite Qcmult_1_l, Hct in H; exact H.
Qed.

Lemma getProgress_fin (c t : Qc) :
  (0 < t)%Qc ->
  getProgress (Fin c) (Fin t) =
    if num_gt (Fin (c / t * hundred)) (Fin hundred) then Fin hundred
    else Fin (c / t * hundred).
Proof.
  intros Ht; unfold getProgress, num_div, Qc_eq_bool.
  destruct (Qc_eq_dec t 0%Qc) as [E|_].
  - exfalso; apply (Qclt_not_eq _ _ Ht); symmetry; exact E.
  - reflexivity.
Qed.

(** C8 (as stated, refuted): [getProgress] is a percentage, not a fraction
    of 1: a goal with 50 saved out of 100 has progress 50, not 0.5. *)
Lemma getProgress_not_fraction :
  getProgress (lit 50) (lit 100) = lit 50 /\
  getProgress (lit 50) (lit 100) <> Fin (Q2Qc (1 # 2)).
Proof.
  split; [num_lit|].
  intros H; apply (f_equal fin_num) in H; vm_compute in H; discriminate.
Qed.

Lemma isCompleted_fin (x : Qc) :
  isCompleted (Fin x) = true <-> (hundred <= x)%Qc.
Proof.
  unfold isCompleted, num_ge; change (lit 100) with (Fin hundred).
  rewrite Qcle_alt; unfold num_gt, Qccompare.
  destruct (Qcompare hundred x) eqn:E; simpl; split; intros H;
    try reflexivity; try discriminate; try (intros F; discriminate F).
  contradiction H; reflexivity.
Qed.

(** C8 (amended): for a positive target, progress is
    [min(current / target * 100, 100)]: exactly 100 as soon as
    [current >= target], never above 100, and the goal is completed
    ([progress >= 100]) exactly when [current >= target]. *)
Theorem getProgress_percent (c t : Qc) :
  (0 < t)%Qc ->
  getProgress (Fin c) (Fin t) = num_min (Fin (c / t * hundred)) (lit 100) /\
  ((t <= c)%Qc -> getProgress (Fin c) (Fin t) = lit 100) /\
  num_le (getProgress (Fin c) (Fin t)) (lit 100) = true /\
  (isCompleted (getProgress (Fin c) (Fin t)) = true <-> (t <= c)%Qc).
Proof.
  intros Ht.
  split; [unfold getProgress, num_div, Qc_eq_bool;
          destruct (Qc_eq_dec t 0%Qc) as [E|_];
          [exfalso; apply (Qclt_not_eq _ _ Ht); symmetry; exact E
          |reflexivity]|].
  rewrite (getProgress_fin c t Ht).
  change (lit 100) with (Fin hundred).
  destruct (num_gt (Fin (c / t * hundred)) (Fin hundred)) eqn:Egt.
  - apply num_gt_fin in Egt.
    split; [reflexivity|split; [apply num_le_fin, Qcle_refl|]].
    rewrite isCompleted_fin; split; [intros _|intros _; apply Qcle_refl].
    apply (ratio_ge_iff c t Ht), Qclt_le_weak, Egt.
  - apply num_gt_fin_false in Egt.
    split; [|split; [apply num_le_fin, Egt|]].
    + intros Hc; f_equal; apply Qcle_antisym; [exact Egt|].
      apply (ratio_ge_iff c t Ht), Hc.
    + rewrite isCompleted_fin; symmetry; apply (ratio_ge_iff c t Ht).
Qed.

Lemma getProgress_percent_witness :
  getProgress (lit 150) (lit 100) =
    num_min (Fin (Q2Qc (inject_Z 150) / Q2Qc (inject_Z 100) * hundred))
            (lit 100) /\
  ((Q2Qc (inject_Z 100) <= Q2Qc (inject_Z 150))%Qc ->
   getProgress (lit 150) (lit 100) = lit 100) /\
  num_le (getProgress (lit 150) (lit 100)) (lit 100) = true /\
  (isCompleted (getProgress (lit 150) (lit 100)) = true <->
   (Q2Qc (inject_Z 100) <= Q2Qc (inject_Z 150))%Qc).
Proof.
  apply (getProgress_percent (Q2Qc (inject_Z 150)) (Q2Qc (inject_Z 100))).
  unfold Qclt; vm_compute; reflexivity.
Defined.

(** ** Reading the ledger: [getTransactions] *)

(** The order [getTransactions] returns: newest date first. *)
Definition date_ge (a b : Transaction.t) : Prop :=
  (Transaction.date b <= Transaction.date a)%Z.

Definition owned_by (u : string) (tx : Transaction.t) : bool :=
  String.eqb (Transaction.userId tx) u.

Lemma insert_by_date_desc_perm (tx : Transaction.t) (l : list Transaction.t) :
  Permutation (insert_by_date_desc tx l) (tx :: l).
Proof.
  induction l as [|x r IH]; simpl; [reflexivity|].
  destruct (Z.ltb _ _); [reflexivity|].
  eapply perm_trans; [apply perm_skip, IH|apply perm_swap].
Qed.

Lemma Forall_perm {A : Type} (P : A -> Prop) (l l' : list A) :
  Permutation l l' -> Forall P l -> Forall P l'.
Proof.
  intros Hp H; rewrite Forall_forall in *; intros x Hx.
  apply H; apply Permutation_in with l'; [symmetry; exact Hp|exact Hx].
Qed.

Lemma insert_by_date_desc_sorted (tx : Transaction.t) (l : list Transaction.t) :
  StronglySorted date_ge l -> StronglySorted date_ge (insert_by_date_desc tx l).
Proof.
  induction l as [|x r IH]; simpl; intros Hs.
  - repeat constructor.
  - inversion Hs as [|? ? Hr Hx]; subst.
    destruct (Z.ltb_spec (Transaction.date x) (Transaction.date tx)) as [Lt|Ge].
    + constructor; [exact Hs|].
      constructor; [unfold date_ge; lia|].
      rewrite Forall_forall in *; intros y Hy; specialize (Hx y Hy).
      unfold date_ge in *; lia.
    + constructor; [apply IH, Hr|].
      apply Forall_perm with (tx :: r); [symmetry; apply insert_by_date_desc_perm|].
      constructor; [unfold date_ge; lia|exact Hx].
Qed.

Lemma fold_insert_perm (l : list Transaction.t) :
  Permutation (fold_right insert_by_date_desc [] l) l.
Proof.
  induction l as [|x r IH]; simpl; [reflexivity|].
  eapply perm_trans; [apply insert_by_date_desc_perm|apply perm_skip, IH].
Qed.

Lemma fold_insert_sorted (l : list Transaction.t) :
  StronglySorted date_ge (fold_right insert_by_date_desc [] l).
Proof.
  induction l as [|x r IH]; simpl; [constructor|].
  apply insert_by_date_desc_sorted, IH.
Qed.

Lemma getTransactions_perm (db : DB) (u : string) :
  Permutation (getTransactions db u)
              (filter (owned_by u) (map snd (transactions db))).
Proof. apply fold_insert_perm. Qed.

Lemma getTransactions_props (db : DB) (u : string) :
  (forall t, In t (getTransactions db u) <->
             In t (map snd (transactions db)) /\ Transaction.userId t = u) /\
  Permutation (getTransactions db u)
              (filter (owned_by u) (map snd (transactions db))) /\
  StronglySorted date_ge (getTransactions db u).
Proof.
  split; [|split; [apply getTransactions_perm|apply fold_insert_sorted]].
  intros t; split; intros H.
  - apply (Permutation_in _ (getTransactions_perm db u)) in H.
    apply filter_In in H as [H1 H2]; split; [exact H1|].
    apply String.eqb_eq, H2.
  - apply (Permutation_in _ (Permutation_sym (getTransactions_perm db u))).
    apply filter_In; split; [apply H|apply String.eqb_eq, H].
Qed.

(** [getTransactions db u] lists exactly the stored transactions whose
    [userId] is [u], each as often as it is stored, with non-increasing
    dates along the list (every transaction precedes all older ones). *)
Theorem getTransactions_spec (db : DB) (u : string) :
  (forall t, In t (getTransactions db u) <->
             In t (map snd (transactions db)) /\ Transaction.userId t = u) /\
  Permutation (getTransactions db u)
              (filter (owned_by u) (map snd (transactions db))) /\
  StronglySorted date_ge (getTransactions db u).
Proof. exact (getTransactions_props db u). Qed.

(** ** [addTransaction] seen from the readers *)

Lemma addTransaction_transactions (db : DB) (tx : Transaction.t) :
  transactions (snd (addTransaction db tx)) =
  transactions db ++ [(fst (addTransaction db tx), tx)].
Proof.
  unfold addTransaction.
  destruct (Transaction.type tx), (Transaction.paymentMethod tx) as [[|]|];
    try reflexivity.
  destruct (getProfile db _); [|reflexivity].
  destruct (negb _); reflexivity.
Qed.

Lemma getTransactions_append (db : DB) (k : Z) (tx : Transaction.t)
  (ps : list Profile.t) (u : string) :
  getTransactions (mkDB ps (transactions db ++ [(k, tx)])) u =
  fold_right insert_by_date_desc []
    (filter (owned_by u) (map snd (transactions db)) ++
     (if owned_by u tx then [tx] else [])).
Proof.
  unfold getTransactions; simpl.
  rewrite map_app, filter_app; reflexivity.
Qed.

(** The profile of a user other than the transaction's owner is left alone
    (profile keys being distinct). *)
Lemma getProfile_addTransaction_other (db : DB) (tx : Transaction.t) (v : string) :
  NoDup (profile_ids db) -> Transaction.userId tx <> v ->
  getProfile (snd (addTransaction db tx)) v = getProfile db v.
Proof.
  intros Hnd Hne; unfold addTransaction.
  destruct (Transaction.type tx), (Transaction.paymentMethod tx) as [[|]|];
    try reflexivity.
  destruct (getProfile db (Transaction.userId tx)) as [q|] eqn:Hq;
    [|reflexivity].
  destruct (negb _); [|reflexivity].
  rewrite getProfile_add_tx, getProfile_update.
  destruct (getProfile db v) as [p|] eqn:Hp; [|reflexivity]; simpl.
  destruct (Z.eqb_spec (Profile.id p) (Profile.id q)) as [E|]; [|reflexivity].
  exfalso; unfold getProfile in Hp, Hq.
  apply find_some in Hp as [Inp Up]; apply find_some in Hq as [Inq Uq].
  rewrite (nodup_ids_inj _ p q Hnd Inp Inq E) in Up.
  apply String.eqb_eq in Up, Uq; congruence.
Qed.

(** Adding a transaction for one user changes nothing another user can
    see: that user's profile, transaction list and balance are the same
    before and after (profile keys being distinct). *)
Theorem addTransaction_other_user (db : DB) (tx : Transaction.t) (v : string)
  (ib : num) :
  NoDup (profile_ids db) -> Transaction.userId tx <> v ->
  getProfile (snd (addTransaction db tx)) v = getProfile db v /\
  getTransactions (snd (addTransaction db tx)) v = getTransactions db v /\
  calculateBalance (snd (addTransaction db tx)) v ib = calculateBalance db v ib.
Proof.
  intros Hnd Hne.
  assert (Hp := getProfile_addTransaction_other db tx v Hnd Hne).
  assert (Ht : getTransactions (snd (addTransaction db tx)) v =
               getTransactions db v).
  { destruct (snd (addTransaction db tx)) as [ps ts] eqn:E.
    pose proof (addTransaction_transactions db tx) as Htr.
    rewrite E in Htr; simpl in Htr; subst ts.
    rewrite getTransactions_append.
    unfold owned_by at 2; apply String.eqb_neq in Hne; rewrite Hne.
    rewrite app_nil_r; reflexivity. }
  split; [exact Hp|split; [exact Ht|]].
  unfold calculateBalance; rewrite Hp, Ht; reflexivity.
Qed.

Lemma addTransaction_other_user_witness :
  NoDup (profile_ids (one_profile_db 5000 0)) /\ ("2" <> "1")%string /\
  getProfile (snd (addTransaction (one_profile_db 5000 0)
                     (tx_of 300 Expense (Some Credit) "food" 1 "2"))) "1" =
    getProfile (one_profile_db 5000 0) "1" /\
  getTransactions (snd (addTransaction (one_profile_db 5000 0)
                     (tx_of 300 Expense (Some Credit) "food" 1 "2"))) "1" =
    getTransactions (one_profile_db 5000 0) "1" /\
  calculateBalance (snd (addTransaction (one_profile_db 5000 0)
                     (tx_of 300 Expense (Some Credit) "food" 1 "2"))) "1" (lit 1000) =
    calculateBalance (one_profile_db 5000 0) "1" (lit 1000).
Proof.
  assert (Hnd : NoDup (profile_ids (one_profile_db 5000 0)))
    by (constructor; [intros []|constructor]).
  assert (Hne : ("2" <> "1")%string) by discriminate.
  split; [exact Hnd|split; [exact Hne|]].
  apply (addTransaction_other_user (one_profile_db 5000 0)
           (tx_of 300 Expense (Some Credit) "food" 1 "2") "1" (lit 1000) Hnd Hne).
Defined.

(** ** Sign-in and registration (AuthContext.tsx) *)

(** The fields handed to [createProfile] ([Omit<Profile, 'id' | 'createdAt'>]);
    [email], [phone] and [creditDueDate] are not read by any modelled code
    and are left out. *)
Record ProfileInput : Type := mkInput {
  in_userId : string;
  in_fullName : string;
  in_initialBalance : num;
  in_creditLimit : num;
  in_creditUsed : num;
  in_creditDueDay : option Z
}.

(** Next auto-increment key of the profiles table ([++id]). *)
Definition next_profile_key (db : DB) : Z :=
  1 + fold_left (fun m p => Z.max m (Profile.id p)) (profiles db) 0.

(** [createProfile(profile)]: [db.profiles.add({...profile, createdAt})];
    returns the new key. *)
Definition createProfile (db : DB) (i : ProfileInput) : Z * DB :=
  let k := next_profile_key db in
  (k, mkDB (profiles db ++
            [Profile.mk k (in_userId i) (in_fullName i) (in_initialBalance i)
               (in_creditLimit i) (in_creditUsed i) (in_creditDueDay i)])
           (transactions db)).

(** The auth provider's state: [user], the [localStorage] entry
    [inovafinance_userId], and the database. *)
Record AuthState : Type := mkAuth {
  auth_user : option Profile.t;
  stored_userId : option string;
  auth_db : DB
}.

(** [x || d] for an optional number argument ([undefined] is falsy). *)
Definition opt_or (a : option num) (d : num) : num :=
  match a with Some n => num_or n d | None => d end.

(** [login(userId, fullName?, email?, phone?, initialBalance?, creditLimit?,
    creditDueDate?)]: an existing profile signs in; a missing one is created
    when a non-empty [fullName] is given. [email], [phone] and
    [creditDueDate] go to fields the modelled [Profile.t] does not carry;
    [creditDueDay] is never written here, hence [None]. *)
Definition login (st : AuthState) (userId : string) (fullName : option string)
  (initialBalance creditLimit : option num) : bool * AuthState :=
  let db := auth_db st in
  let '(profile, db') :=
    match getProfile db userId with
    | Some p => (Some p, db)
    | None =>
        match fullName with
        | Some name =>
            if String.eqb name "" then (None, db) else
            let db1 := snd (createProfile db
                         (mkInput userId name (opt_or initialBalance zero)
                            (opt_or creditLimit (lit 5000)) zero None)) in
            (getProfile db1 userId, db1)
        | None => (None, db)
        end
    end in
  match profile with
  | Some p => (true, mkAuth (Some p) (Some userId) db')
  | None => (false, mkAuth (auth_user st) (stored_userId st) db')
  end.

(** The shape of the profiles table the write path relies on: distinct,
    positive (hence truthy) keys and at most one profile per [userId]. *)
Definition profiles_wf (db : DB) : Prop :=
  NoDup (profile_ids db) /\ Forall (fun p => 0 < Profile.id p) (profiles db) /\
  NoDup (map Profile.userId (profiles db)).

(** The stores the app can reach from an empty database through its
    writers: sign-in/registration and [addTransaction]. *)
Inductive reachable : DB -> Prop :=
| reach_empty : reachable empty_db
| reach_login (db : DB) (u0 : option Profile.t) (s0 : option string)
    (u : string) (name : option string) (ib cl : option num) :
    reachable db -> reachable (auth_db (snd (login (mkAuth u0 s0 db) u name ib cl)))
| reach_add (db : DB) (tx : Transaction.t) :
    reachable db -> reachable (snd (addTransaction db tx)).

Lemma fold_max_ge (l : list Profile.t) (m : Z) :
  m <= fold_left (fun m p => Z.max m (Profile.id p)) l m /\
  Forall (fun p => Profile.id p <= fold_left (fun m p => Z.max m (Profile.id p)) l m) l.
Proof.
  revert m; induction l as [|x l IH]; intros m; simpl; [split; [lia|constructor]|].
  destruct (IH (Z.max m (Profile.id x))) as [H1 H2].
  split; [lia|constructor; [lia|exact H2]].
Qed.

Lemma next_profile_key_fresh (db : DB) :
  0 < next_profile_key db /\
  Forall (fun p => Profile.id p < next_profile_key db) (profiles db).
Proof.
  unfold next_profile_key.
  destruct (fold_max_ge (profiles db) 0) as [H1 H2]; split; [lia|].
  rewrite Forall_forall in *; intros p Hp; specialize (H2 p Hp); lia.
Qed.

Lemma getProfile_app_none (l : list Profile.t) (p : Profile.t) (tx : list (Z * Transaction.t)) (u : string) :
  find (fun q => String.eqb (Profile.userId q) u) l = None ->
  Profile.userId p = u ->
  getProfile (mkDB (l ++ [p]) tx) u = Some p.
Proof.
  intros Hn Hu; unfold getProfile; simpl.
  induction l as [|x l IH]; simpl in *.
  - rewrite Hu, String.eqb_refl; reflexivity.
  - destruct (String.eqb _ _); [discriminate|apply IH, Hn].
Qed.

Lemma find_none_notin (l : list Profile.t) (u : string) :
  find (fun q => String.eqb (Profile.userId q) u) l = None ->
  ~ In u (map Profile.userId l).
Proof.
  intros Hn Hin; apply in_map_iff in Hin as [q [Hq Hin]].
  apply (find_none _ _ Hn) in Hin; rewrite Hq, String.eqb_refl in Hin; discriminate.
Qed.

Lemma NoDup_app_single {A : Type} (l : list A) (x : A) :
  NoDup l -> ~ In x l -> NoDup (l ++ [x]).
Proof.
  intros Hnd Hx; apply NoDup_app; [exact Hnd|repeat constructor; intros []|].
  intros y Hy [<-|[]]; contradiction.
Qed.

(** [login] on an existing [userId] signs that profile in and writes
    nothing; with a missing [userId] and no (or an empty) [fullName] it
    fails and changes nothing; with a missing [userId] and a non-empty
    [fullName] it appends one profile under a fresh key, with
    [creditUsed = 0], [creditLimit = creditLimit || 5000],
    [initialBalance = initialBalance || 0] and no [creditDueDay] (so the
    assistant counts days to the 5th for it), and signs it in. *)
Theorem login_spec (st : AuthState) (u : string) (name : option string)
  (ib cl : option num) :
  (forall p, getProfile (auth_db st) u = Some p ->
     login st u name ib cl = (true, mkAuth (Some p) (Some u) (auth_db st))) /\
  (getProfile (auth_db st) u = None ->
   (name = None \/ name = Some ""%string) ->
     login st u name ib cl = (false, st)) /\
  (forall n, getProfile (auth_db st) u = None -> name = Some n -> n <> ""%string ->
     let k := next_profile_key (auth_db st) in
     let p := Profile.mk k u n (opt_or ib zero) (opt_or cl (lit 5000)) zero None in
     login st u name ib cl =
       (true, mkAuth (Some p) (Some u)
                (mkDB (profiles (auth_db st) ++ [p]) (transactions (auth_db st)))) /\
     Forall (fun q => Profile.id q < k) (profiles (auth_db st)) /\
     (forall LocalTZA today, daysUntilDue LocalTZA today (Profile.creditDueDay p) =
                            days_until_due_day LocalTZA today 5)).
Proof.
  split; [|split].
  - intros p Hp; unfold login; rewrite Hp; reflexivity.
  - intros Hn [-> | ->]; unfold login; rewrite Hn; destruct st; reflexivity.
  - intros n Hn -> Hne k p; split; [|split].
    + unfold login; rewrite Hn.
      apply String.eqb_neq in Hne; rewrite Hne.
      unfold createProfile; cbn [snd].
      rewrite getProfile_app_none; [reflexivity|exact Hn|reflexivity].
    + apply next_profile_key_fresh.
    + reflexivity.
Qed.

Lemma login_spec_witness :
  let st := mkAuth None None empty_db in
  (forall p, getProfile (auth_db st) "7" = Some p ->
     login st "7" (Some "Ana"%string) None None =
       (true, mkAuth (Some p) (Some "7"%string) (auth_db st))) /\
  (getProfile (auth_db st) "7" = None ->
   (Some "Ana"%string = None \/ Some "Ana"%string = Some ""%string) ->
     login st "7" (Some "Ana"%string) None None = (false, st)) /\
  (forall n, getProfile (auth_db st) "7" = None -> Some "Ana"%string = Some n ->
     n <> ""%string ->
     let k := next_profile_key (auth_db st) in
     let p := Profile.mk k "7" n (opt_or None zero) (opt_or None (lit 5000)) zero None in
     login st "7" (Some "Ana"%string) None None =
       (true, mkAuth (Some p) (Some "7"%string)
                (mkDB (profiles (auth_db st) ++ [p]) (transactions (auth_db st)))) /\
     Forall (fun q => Profile.id q < k) (profiles (auth_db st)) /\
     (forall LocalTZA today, daysUntilDue LocalTZA today (Profile.creditDueDay p) =
                            days_until_due_day LocalTZA today 5)).
Proof.
  apply (login_spec (mkAuth None None empty_db) "7" (Some "Ana"%string) None None).
Defined.

Lemma addTransaction_profiles_shape (db : DB) (tx : Transaction.t) :
  map Profile.id (profiles (snd (addTransaction db tx))) = map Profile.id (profiles db) /\
  map Profile.userId (profiles (snd (addTransaction db tx))) =
    map Profile.userId (profiles db).
Proof.
  unfold addTransaction.
  destruct (Transaction.type tx), (Transaction.paymentMethod tx) as [[|]|];
    try (split; reflexivity).
  destruct (getProfile db _); [|split; reflexivity].
  destruct (negb _); [|split; reflexivity].
  simpl; rewrite !map_map; split; apply map_ext; intros x;
    destruct (Z.eqb _ _); reflexivity.
Qed.

Lemma reachable_wf (db : DB) : reachable db -> profiles_wf db.
Proof.
  induction 1 as [|db u0 s0 u name ib cl _ IH|db tx _ IH].
  - repeat constructor.
  - destruct IH as [H1 [H2 H3]].
    unfold login; cbn [auth_db].
    destruct (getProfile db u) as [p|] eqn:Hp.
    + split; [exact H1|split; [exact H2|exact H3]].
    + destruct name as [n|]; [|split; [exact H1|split; [exact H2|exact H3]]].
      destruct (String.eqb n ""); [split; [exact H1|split; [exact H2|exact H3]]|].
      destruct (next_profile_key_fresh db) as [Hk Hlt].
      unfold createProfile; cbn [snd].
      rewrite getProfile_app_none by (exact Hp || reflexivity); cbn [auth_db].
      unfold profiles_wf, profile_ids; simpl; rewrite !map_app; simpl.
      split; [|split].
      * apply NoDup_app_single; [exact H1|].
        intros Hin; apply in_map_iff in Hin as [q [Hq Hin]].
        rewrite Forall_forall in Hlt; specialize (Hlt q Hin); lia.
      * apply Forall_app; split; [exact H2|constructor; [exact Hk|constructor]].
      * apply NoDup_app_single; [exact H3|].
        apply find_none_notin, Hp.
  - destruct IH as [H1 [H2 H3]].
    destruct (addTransaction_profiles_shape db tx) as [E1 E2].
    unfold profiles_wf, profile_ids; rewrite E1, E2; split; [exact H1|split; [|exact H3]].
    rewrite Forall_forall in *; intros p Hp.
    assert (Hin : In (Profile.id p) (map Profile.id (profiles db)))
      by (rewrite <- E1; apply in_map, Hp).
    apply in_map_iff in Hin as [q [Hq Hin]]; rewrite <- Hq; apply H2, Hin.
Qed.

(** Every store reachable from an empty database through sign-in,
    registration and [addTransaction] has distinct positive profile keys
    and at most one profile per [userId]: the shape under which
    [addTransaction]'s credit update reaches exactly the owner's profile. *)
Theorem reachable_profiles_wf (db : DB) : reachable db -> profiles_wf db.
Proof. exact (reachable_wf db). Qed.

Lemma reachable_profiles_wf_witness :
  profiles_wf (snd (addTransaction
    (auth_db (snd (login (mkAuth None None empty_db) "7" (Some "Ana"%string)
                    None None)))
    (tx_of 300 Expense (Some Credit) "food" 1 "7"))).
Proof.
  apply reachable_profiles_wf, reach_add, reach_login, reach_empty.
Defined.

(** ** What [confirmTransaction] writes *)

Definition is_recorded (o : Outcome) : bool :=
  match o with Recorded _ => true | _ => false end.

Lemma commit_fst (s : Session) (usr : Profile.t) (pt : PendingTransaction)
  (a : num) (now : Z) :
  fst (commit s usr pt a now) =
  Recorded (fst (addTransaction (store s) (confirmed_tx usr pt a now))) /\
  store (snd (commit s usr pt a now)) =
  snd (addTransaction (store s) (confirmed_tx usr pt a now)).
Proof.
  unfold commit; destruct (addTransaction _ _) as [k db'] eqn:E; simpl.
  split; [reflexivity|]; rewrite store_refreshUser; reflexivity.
Qed.

Lemma confirmTransaction_outcome (s : Session) (ui : ConfirmUI) (now : Z) :
  let r := confirmTransaction s ui now in
  (is_recorded (fst r) = false -> snd r = s) /\
  (forall k, fst r = Recorded k ->
     exists usr pt, user s = Some usr /\ pendingTransaction ui = Some pt /\
       let tx := confirmed_tx usr pt (final_amount ui pt) now in
       k = fst (addTransaction (store s) tx) /\
       store (snd r) = snd (addTransaction (store s) tx)).
Proof.
  intros r; subst r; unfold confirmTransaction.
  destruct (pendingTransaction ui) as [pt|] eqn:Hpt;
    [|split; [reflexivity|discriminate]].
  destruct (user s) as [usr|] eqn:Hu; [|split; [reflexivity|discriminate]].
  destruct (isNaN _ || num_le _ _); [split; [reflexivity|discriminate]|].
  assert (C : let r := commit s usr pt (final_amount ui pt) now in
    (is_recorded (fst r) = false -> snd r = s) /\
    (forall k, fst r = Recorded k ->
     exists usr' pt', Some usr = Some usr' /\ Some pt = Some pt' /\
       let tx := confirmed_tx usr' pt' (final_amount ui pt') now in
       k = fst (addTransaction (store s) tx) /\
       store (snd r) = snd (addTransaction (store s) tx))).
  { destruct (commit_fst s usr pt (final_amount ui pt) now) as [F S].
    cbv zeta; rewrite F; split; [discriminate|].
    intros k Hk; injection Hk as <-; exists usr, pt; auto. }
  destruct (pt_type pt), (pt_paymentMethod pt); try exact C.
  destruct (num_gt _ _); [split; [reflexivity|discriminate]|exact C].
Qed.

(** [confirmTransaction] either writes nothing and keeps the session as it
    was (no pending transaction or user, invalid amount, insufficient
    credit), or reports [Recorded k] after exactly one [addTransaction] of
    the pending transaction with the final amount, the user's [userId] and
    the current date, [k] being the new record's key. *)
Theorem confirmTransaction_effect (s : Session) (ui : ConfirmUI) (now : Z) :
  let r := confirmTransaction s ui now in
  (is_recorded (fst r) = false -> snd r = s) /\
  (forall k, fst r = Recorded k ->
     exists usr pt, user s = Some usr /\ pendingTransaction ui = Some pt /\
       let tx := confirmed_tx usr pt (final_amount ui pt) now in
       k = fst (addTransaction (store s) tx) /\
       store (snd r) = snd (addTransaction (store s) tx)).
Proof. exact (confirmTransaction_outcome s ui now). Qed.

(** A confirmed income is stored with payment method [debit], whatever
    method was selected for it, and leaves every profile (every
    [creditUsed] in particular) unchanged. *)
Theorem confirmTransaction_income_debit (s : Session) (ui : ConfirmUI)
  (now : Z) (pt : PendingTransaction) :
  pendingTransaction ui = Some pt -> pt_type pt = Income ->
  profiles (store (snd (confirmTransaction s ui now))) = profiles (store s) /\
  (forall k, fst (confirmTransaction s ui now) = Recorded k ->
     exists tx, In (k, tx) (transactions (store (snd (confirmTransaction s ui now)))) /\
       Transaction.type tx = Income /\ Transaction.paymentMethod tx = Some Debit /\
       Transaction.amount tx = final_amount ui pt).
Proof.
  intros Hpt Hty.
  destruct (confirmTransaction_outcome s ui now) as [N R].
  destruct (is_recorded (fst (confirmTransaction s ui now))) eqn:Er.
  - destruct (fst (confirmTransaction s ui now)) as [| | |k0] eqn:Eo;
      try discriminate.
    destruct (R k0 eq_refl) as [usr [pt' [Hu [Hpt' [Hk Hst]]]]].
    rewrite Hpt in Hpt'; injection Hpt' as <-.
    rewrite Hst; split.
    + unfold addTransaction, confirmed_tx; simpl; rewrite Hty; reflexivity.
    + intros k Hk'; injection Hk' as <-.
      exists (confirmed_tx usr pt (final_amount ui pt) now); split.
      * rewrite addTransaction_transactions, <- Hk.
        apply in_or_app; right; left; reflexivity.
      * unfold confirmed_tx; simpl; rewrite Hty; repeat split.
  - rewrite (N eq_refl); split; [reflexivity|].
    intros k Hk; rewrite Hk in Er; discriminate.
Qed.

Lemma confirmTransaction_income_debit_witness :
  let ui := ui_of (pending_of 200 Income Credit "salary") in
  profiles (store (snd (confirmTransaction (session_of 5000 0) ui 1))) =
    profiles (store (session_of 5000 0)) /\
  (forall k, fst (confirmTransaction (session_of 5000 0) ui 1) = Recorded k ->
     exists tx, In (k, tx) (transactions (store (snd
                  (confirmTransaction (session_of 5000 0) ui 1)))) /\
       Transaction.type tx = Income /\ Transaction.paymentMethod tx = Some Debit /\
       Transaction.amount tx = final_amount ui (pending_of 200 Income Credit "salary")).
Proof.
  apply (confirmTransaction_income_debit (session_of 5000 0)
           (ui_of (pending_of 200 Income Credit "salary")) 1
           (pending_of 200 Income Credit "salary")); reflexivity.
Defined.

(** ** The assistant's context ([getFinancialContext], AI.tsx) *)

(** An entry of [recentTransactions]. *)
Record RecentTx : Type := mkRecent {
  rt_amount : num;
  rt_type : TxType;
  rt_category : string;
  rt_description : string
}.

Record FinancialContext : Type := mkContext {
  fc_balance : num;
  fc_totalIncome : num;
  fc_totalExpense : num;
  fc_creditLimit : num;
  fc_creditUsed : num;
  fc_creditDueDay : Z;
  fc_daysUntilDue : Z;
  fc_recentTransactions : list RecentTx
}.

Definition to_recent (t : Transaction.t) : RecentTx :=
  mkRecent (Transaction.amount t) (Transaction.type t) (Transaction.category t)
    (Transaction.description t).

(** [dueDay = user.creditDueDay || 5] *)
Definition due_day_of (creditDueDay : option Z) : Z :=
  match creditDueDay with
  | Some d => if d =? 0 then 5 else d
  | None => 5
  end.

(** [getFinancialContext()] read at the local date [today], in the host's
    time zone [LocalTZA]. *)
Definition getFinancialContext (LocalTZA : Z -> Z) (s : Session)
  (today : LocalDate) : FinancialContext :=
  match user s with
  | None => mkContext zero zero zero zero zero 5 0 []
  | Some usr =>
      let r := calculateBalance (store s) (Profile.userId usr)
                 (Profile.initialBalance usr) in
      let txs := getTransactions (store s) (Profile.userId usr) in
      let recentTransactions := map to_recent (firstn 10 txs) in
      let dueDay := due_day_of (Profile.creditDueDay usr) in
      mkContext (balance r) (totalIncome r) (totalExpense r)
        (num_or (Profile.creditLimit usr) (lit 5000))
        (num_or (creditUsed r) zero) dueDay
        (days_until_due_day LocalTZA today dueDay) recentTransactions
  end.

Lemma StronglySorted_app {A : Type} (R : A -> A -> Prop) (l1 l2 : list A) :
  StronglySorted R (l1 ++ l2) -> forall x y, In x l1 -> In y l2 -> R x y.
Proof.
  induction l1 as [|a l1 IH]; simpl; intros Hs x y Hx Hy; [contradiction|].
  inversion Hs as [|? ? Hs' Hf]; subst.
  destruct Hx as [<-|Hx].
  - rewrite Forall_forall in Hf; apply Hf, in_or_app; right; exact Hy.
  - apply IH; assumption.
Qed.

(** The assistant is sent the user's [min(10, n)] newest transactions
    ([n] the number the user has stored): the stored transactions split
    into those sent and those left out, and none left out is dated after
    one that is sent. *)
Theorem getFinancialContext_recent (LocalTZA : Z -> Z) (s : Session)
  (today : LocalDate) (usr : Profile.t) :
  user s = Some usr ->
  let all := filter (owned_by (Profile.userId usr)) (map snd (transactions (store s))) in
  exists sent left_out : list Transaction.t,
    Permutation (sent ++ left_out)%list all /\
    fc_recentTransactions (getFinancialContext LocalTZA s today) = map to_recent sent /\
    List.length sent = Nat.min 10 (List.length all) /\
    (forall t t', In t left_out -> In t' sent ->
       (Transaction.date t <= Transaction.date t')%Z).
Proof.
  intros Hu all; unfold getFinancialContext; rewrite Hu; cbn zeta.
  set (txs := getTransactions (store s) (Profile.userId usr)).
  destruct (getTransactions_props (store s) (Profile.userId usr)) as [_ [Hp Hs]].
  fold txs in Hp, Hs.
  exists (firstn 10 txs), (skipn 10 txs); split; [|split; [reflexivity|split]].
  - rewrite firstn_skipn; exact Hp.
  - rewrite length_firstn, (Permutation_length Hp); reflexivity.
  - intros t t' Ht Ht'.
    rewrite <- (firstn_skipn 10 txs) in Hs.
    exact (StronglySorted_app date_ge _ _ Hs t' t Ht' Ht).
Qed.

Lemma getFinancialContext_recent_witness :
  let s := mkSession (Some (profile_of 1 "1" 5000 0)) scenario1_db in
  exists sent left_out : list Transaction.t,
    Permutation (sent ++ left_out)%list
      (filter (owned_by "1") (map snd (transactions (store s)))) /\
    fc_recentTransactions (getFinancialContext sao_paulo s sao_paulo_noon) =
      map to_recent sent /\
    List.length sent = Nat.min 10 (List.length (filter (owned_by "1")
                                       (map snd (transactions (store s))))) /\
    (forall t t', In t left_out -> In t' sent ->
       (Transaction.date t <= Transaction.date t')%Z).
Proof.
  apply (getFinancialContext_recent sao_paulo
           (mkSession (Some (profile_of 1 "1" 5000 0)) scenario1_db)
           sao_paulo_noon (profile_of 1 "1" 5000 0)); reflexivity.
Defined.

(** ** Goals ([goals] table of db.ts, Goals page of Login.tsx) *)

Module Goal.
Record t : Type := mk {
  id : Z;
  title : string;
  targetAmount : num;
  currentAmount : num;
  deadline : Z;     (* time value of the deadline *)
  userId : string;
  createdAt : Z
}.

(** The record after [update(id, { currentAmount: v })]. *)
Definition set_currentAmount (g : t) (v : num) : t :=
  mk (id g) (title g) (targetAmount g) v (deadline g) (userId g) (createdAt g).
End Goal.

(** Next auto-increment key of the goals table. *)
Definition next_goal_key (gs : list Goal.t) : Z :=
  1 + fold_left (fun m g => Z.max m (Goal.id g)) gs 0.

(** [getGoals(userId)]: [where('userId').equals(userId).toArray()]. *)
Definition getGoals (gs : list Goal.t) (u : string) : list Goal.t :=
  filter (fun g => String.eqb (Goal.userId g) u) gs.

(** [addGoal(goal)]: [add({...goal, createdAt: new Date()})], the new key
    and the table. *)
Definition addGoal (gs : list Goal.t) (title : string) (targetAmount currentAmount : num)
  (deadline : Z) (userId : string) (createdAt : Z) : Z * list Goal.t :=
  let k := next_goal_key gs in
  (k, gs ++ [Goal.mk k title targetAmount currentAmount deadline userId createdAt]).

(** [updateGoal(id, { currentAmount: v })]: Dexie's [update] sets the field
    of the record with that key and reports the number of records the key
    matched: 1, also when the value was already [v]; 0 when there is no
    such record. *)
Definition updateGoal (gs : list Goal.t) (key : Z) (v : num) : Z * list Goal.t :=
  match find (fun g => Z.eqb (Goal.id g) key) gs with
  | None => (0, gs)
  | Some _ =>
      (1, map (fun x => if Z.eqb (Goal.id x) key then Goal.set_currentAmount x v else x) gs)
  end.

(** The add-goal form ([newGoal]): the raw input strings. *)
Record GoalForm : Type := mkGoalForm {
  gf_title : string;
  gf_targetAmount : string;
  gf_currentAmount : string;
  gf_deadline : string
}.

Definition empty_goal_form : GoalForm := mkGoalForm "" "" "" "".

Section GoalsPage.

(** The time value of [new Date(s)] for the value [s] of the page's
    [type="date"] input when it is not empty. *)
Variable parse_date : string -> Z.

(** [handleAddGoal]: with a user, a title and a target amount, add the goal
    ([deadline] defaulting to the current time [now]) and clear the form;
    [createdAt] is the time [addGoal] runs. *)
Definition handleAddGoal (usr : option Profile.t) (form : GoalForm)
  (now createdAt : Z) (gs : list Goal.t) : list Goal.t * GoalForm :=
  match usr with
  | None => (gs, form)
  | Some p =>
      if String.eqb (gf_title form) "" || String.eqb (gf_targetAmount form) ""
      then (gs, form)
      else
        let '(_, gs') :=
          addGoal gs (gf_title form) (parseFloat (gf_targetAmount form))
            (num_or (parseFloat (gf_currentAmount form)) zero)
            (if String.eqb (gf_deadline form) "" then now
             else parse_date (gf_deadline form))
            (Profile.userId p) createdAt in
        (gs', empty_goal_form)
  end.

End GoalsPage.

(** [handleUpdateGoal(id, amount)]: the quick-add buttons call it with
    [goal.currentAmount + amount]. *)
Definition handleUpdateGoal (gs : list Goal.t) (key : Z) (amount : num) : list Goal.t :=
  snd (updateGoal gs key amount).

(** [getDaysRemaining(deadline)] at the current time [now]. *)
Definition getDaysRemaining (deadline now : Z) : Z :=
  ceil_div (deadline - now) msPerDay.

Lemma num_or_not_nan (a : num) : num_or a zero <> NaN.
Proof.
  unfold num_or; destruct a; simpl; try discriminate.
  destruct (negb _); discriminate.
Qed.

(** [handleAddGoal] adds nothing unless there is a user and both the title
    and the target amount fields are non-empty; then it appends exactly one
    goal of that user under a fresh key, with the parsed target amount
    (any number the field parses to, 0 included), a current amount that is
    never NaN (an empty or unparsable field gives 0), and the current time
    as deadline when none was entered; the form is cleared. *)
Theorem handleAddGoal_spec (parse_date : string -> Z) (usr : option Profile.t)
  (form : GoalForm) (now createdAt : Z) (gs : list Goal.t) :
  let r := handleAddGoal parse_date usr form now createdAt gs in
  ((usr = None \/ gf_title form = ""%string \/ gf_targetAmount form = ""%string) ->
     r = (gs, form)) /\
  (forall p, usr = Some p -> gf_title form <> ""%string ->
     gf_targetAmount form <> ""%string ->
     exists g, fst r = gs ++ [g] /\ snd r = empty_goal_form /\
       Goal.userId g = Profile.userId p /\ Goal.title g = gf_title form /\
       Goal.targetAmount g = parseFloat (gf_targetAmount form) /\
       Goal.currentAmount g <> NaN /\
       (gf_deadline form = ""%string -> Goal.deadline g = now) /\
       Forall (fun x => Goal.id x < Goal.id g) gs /\
       getGoals (fst r) (Profile.userId p) = getGoals gs (Profile.userId p) ++ [g]).
Proof.
  intros r; subst r; split.
  - intros [->|[E|E]]; [reflexivity| |]; destruct usr; try reflexivity;
      unfold handleAddGoal; rewrite E; simpl; rewrite ?orb_true_r; reflexivity.
  - intros p -> Ht Hta.
    unfold handleAddGoal.
    apply String.eqb_neq in Ht, Hta; rewrite Ht, Hta; simpl.
    eexists; split; [reflexivity|split; [reflexivity|]].
    repeat split; simpl.
    + apply num_or_not_nan.
    + intros Hd; rewrite Hd; reflexivity.
    + unfold next_goal_key.
      assert (H : forall l m, m <= fold_left (fun m g => Z.max m (Goal.id g)) l m /\
                Forall (fun x => Goal.id x <= fold_left (fun m g => Z.max m (Goal.id g)) l m) l).
      { induction l as [|x l IH]; intros m; simpl; [split; [lia|constructor]|].
        destruct (IH (Z.max m (Goal.id x))) as [H1 H2].
        split; [lia|constructor; [lia|exact H2]]. }
      destruct (H gs 0) as [_ H2]; rewrite Forall_forall in *.
      intros x Hx; specialize (H2 x Hx); lia.
    + unfold getGoals; rewrite filter_app; simpl; rewrite String.eqb_refl; reflexivity.
Qed.

Lemma handleAddGoal_spec_witness :
  let form := mkGoalForm "Viagem" "0" "" "" in
  let r := handleAddGoal (fun _ => 0) (Some (profile_of 1 "1" 5000 0)) form 10 10 [] in
  ((Some (profile_of 1 "1" 5000 0) = None \/ gf_title form = ""%string \/
    gf_targetAmount form = ""%string) -> r = ([], form)) /\
  (forall p, Some (profile_of 1 "1" 5000 0) = Some p -> gf_title form <> ""%string ->
     gf_targetAmount form <> ""%string ->
     exists g, fst r = [] ++ [g] /\ snd r = empty_goal_form /\
       Goal.userId g = Profile.userId p /\ Goal.title g = gf_title form /\
       Goal.targetAmount g = parseFloat (gf_targetAmount form) /\
       Goal.currentAmount g <> NaN /\
       (gf_deadline form = ""%string -> Goal.deadline g = 10) /\
       Forall (fun x => Goal.id x < Goal.id g) [] /\
       getGoals (fst r) (Profile.userId p) = getGoals [] (Profile.userId p) ++ [g]).
Proof.
  apply (handleAddGoal_spec (fun _ => 0) (Some (profile_of 1 "1" 5000 0))
           (mkGoalForm "Viagem" "0" "" "") 10 10 []).
Defined.

(** A goal whose target is 0 (the add form accepts "0"): any positive
    current amount shows 100% and counts as completed; a current amount of 0
    gives progress NaN and a negative one -Infinity, neither completed. *)
Theorem getProgress_zero_target (c : Qc) :
  ((0 < c)%Qc -> getProgress (Fin c) zero = lit 100 /\
                 isCompleted (getProgress (Fin c) zero) = true) /\
  (getProgress zero zero = NaN /\ isCompleted (getProgress zero zero) = false) /\
  ((c < 0)%Qc -> getProgress (Fin c) zero = NInf /\
                 isCompleted (getProgress (Fin c) zero) = false).
Proof.
  assert (Hdiv : num_div (Fin c) zero = inf_of_sign (c ?= 0)%Qc)
    by reflexivity.
  split; [|split].
  - intros Hc.
    assert (E : (c ?= 0)%Qc = Gt).
    { destruct (c ?= 0)%Qc eqn:E; try reflexivity; exfalso.
      - apply Qceq_alt in E; subst c; exact (Qclt_not_eq _ _ Hc eq_refl).
      - apply Qclt_alt in E.
        exact (Qclt_not_eq _ _ (Qclt_trans _ _ _ Hc E) eq_refl). }
    unfold getProgress; rewrite Hdiv, E; split; reflexivity.
  - split; reflexivity.
  - intros Hc.
    assert (E : (c ?= 0)%Qc = Lt) by (apply Qclt_alt, Hc).
    unfold getProgress; rewrite Hdiv, E; split; reflexivity.
Qed.

Lemma getProgress_zero_target_witness :
  ((0 < Q2Qc (inject_Z 50))%Qc ->
     getProgress (lit 50) zero = lit 100 /\ isCompleted (getProgress (lit 50) zero) = true) /\
  (getProgress zero zero = NaN /\ isCompleted (getProgress zero zero) = false) /\
  ((Q2Qc (inject_Z 50) < 0)%Qc ->
     getProgress (lit 50) zero = NInf /\ isCompleted (getProgress (lit 50) zero) = false).
Proof. apply (getProgress_zero_target (Q2Qc (inject_Z 50))). Defined.

Lemma find_key_nodup (gs : list Goal.t) (g : Goal.t) (k : Z) :
  NoDup (map Goal.id gs) -> In g gs -> Goal.id g = k ->
  find (fun x => Z.eqb (Goal.id x) k) gs = Some g.
Proof.
  induction gs as [|x gs IH]; simpl; intros Hnd Hin Hk; [contradiction|].
  inversion Hnd as [|? ? Hx Hnd']; subst.
  destruct Hin as [<-|Hin]; [rewrite Z.eqb_refl; reflexivity|].
  destruct (Z.eqb_spec (Goal.id x) (Goal.id g)) as [E|_]; [|apply IH; auto].
  exfalso; apply Hx; rewrite E; apply in_map, Hin.
Qed.

(** [updateGoal]/[handleUpdateGoal] on a key that is not in the table
    changes nothing and reports 0. On the key of a stored goal [g] (keys
    being distinct) the owner's list then shows [g] with the new current
    amount, every other goal is listed as before, no key changes, and the
    count is 1. A quick-add button is the case
    [v = currentAmount g + amount]. *)
Theorem updateGoal_spec (gs : list Goal.t) (k : Z) (v : num) :
  ((forall g, In g gs -> Goal.id g <> k) ->
     updateGoal gs k v = (0, gs) /\ handleUpdateGoal gs k v = gs) /\
  (forall g, NoDup (map Goal.id gs) -> In g gs -> Goal.id g = k ->
     fst (updateGoal gs k v) = 1 /\
     In (Goal.set_currentAmount g v) (getGoals (handleUpdateGoal gs k v) (Goal.userId g)) /\
     (forall y, In y gs -> Goal.id y <> k ->
        In y (getGoals (handleUpdateGoal gs k v) (Goal.userId y))) /\
     map Goal.id (handleUpdateGoal gs k v) = map Goal.id gs).
Proof.
  split.
  - intros Hno.
    assert (E : find (fun x => Z.eqb (Goal.id x) k) gs = None).
    { clear -Hno; induction gs as [|x gs IH]; simpl; [reflexivity|].
      destruct (Z.eqb_spec (Goal.id x) k) as [E|_].
      - exfalso; exact (Hno x (or_introl eq_refl) E).
      - apply IH; intros g Hg; apply Hno; right; exact Hg. }
    unfold handleUpdateGoal, updateGoal; rewrite E; split; reflexivity.
  - intros g Hnd Hin Hk.
    unfold handleUpdateGoal, updateGoal; rewrite (find_key_nodup gs g k Hnd Hin Hk).
    simpl; split; [reflexivity|split; [|split]].
    + unfold getGoals; apply filter_In; split.
      * apply in_map_iff; exists g; rewrite Hk, Z.eqb_refl; auto.
      * apply String.eqb_refl.
    + intros y Hy Hyk; unfold getGoals; apply filter_In; split.
      * apply in_map_iff; exists y; apply Z.eqb_neq in Hyk; rewrite Hyk; auto.
      * apply String.eqb_refl.
    + rewrite map_map; apply map_ext; intros x; destruct (Z.eqb _ _); reflexivity.
Qed.

Definition goal_of (key : Z) (u : string) (current target : Z) : Goal.t :=
  Goal.mk key "Meta" (lit target) (lit current) 0 u 0.

Lemma updateGoal_spec_witness :
  fst (updateGoal [goal_of 1 "1" 50 100; goal_of 2 "1" 0 300] 1 (lit 100)) = 1 /\
  In (Goal.set_currentAmount (goal_of 1 "1" 50 100) (lit 100))
     (getGoals (handleUpdateGoal [goal_of 1 "1" 50 100; goal_of 2 "1" 0 300] 1 (lit 100)) "1").
Proof.
  destruct (updateGoal_spec [goal_of 1 "1" 50 100; goal_of 2 "1" 0 300] 1 (lit 100))
    as [_ H].
  destruct (H (goal_of 1 "1" 50 100)) as [H1 [H2 _]].
  - repeat constructor; simpl; intuition discriminate.
  - left; reflexivity.
  - reflexivity.
  - split; [exact H1|exact H2].
Defined.

(** [getDaysRemaining] is the number of days left rounded up: the least
    whole number [n] with [deadline - now <= n] days. It is positive
    exactly when the deadline is later than now, so the page shows
    "Prazo expirado" from the deadline's instant on. *)
Theorem getDaysRemaining_spec (deadline now : Z) :
  let n := getDaysRemaining deadline now in
  (n - 1) * msPerDay < deadline - now <= n * msPerDay /\
  (0 < n <-> now < deadline).
Proof.
  intros n; subst n; unfold getDaysRemaining, ceil_div, msPerDay.
  split; [|split]; intros; Z.div_mod_to_equations; lia.
Qed.

(** ** Phone field formatting ([formatPhone], Login.tsx)

    Strings are sequences of UTF-16 code units below 256; [\d] and [\D]
    are the ASCII digits and the rest. *)

Definition is_digit (c : Ascii.ascii) : bool :=
  match digit_val c with Some _ => true | None => false end.

(** [value.replace(/\D/g, '')] *)
Fixpoint strip_nondigits (s : string) : string :=
  match s with
  | EmptyString => EmptyString
  | String c r => if is_digit c then String c (strip_nondigits r) else strip_nondigits r
  end.

(** [n] digits at the start of [s], and what follows them. *)
Fixpoint take_digits (n : nat) (s : string) : option (string * string) :=
  match n with
  | O => Some (EmptyString, s)
  | S n' =>
      match s with
      | String c r =>
          if is_digit c
          then option_map (fun dr => (String c (fst dr), snd dr)) (take_digits n' r)
          else None
      | EmptyString => None
      end
  end.

(** ['($1) $2-$3'] for the groups [(\d{2})(\d{5})(\d{4})] of [d]. *)
Definition phone_groups (d : string) : string :=
  "(" ++ substring 0 2 d ++ ") " ++ substring 2 5 d ++ "-" ++ substring 7 4 d.

(** [s.replace(/(\d{2})(\d{5})(\d{4})/, '($1) $2-$3')]: the leftmost
    match, if any, is replaced. *)
Fixpoint replace_phone (s : string) : string :=
  match take_digits 11 s with
  | Some (d, rest) => (phone_groups d ++ rest)%string
  | None =>
      match s with
      | String c r => String c (replace_phone r)
      | EmptyString => EmptyString
      end
  end.

Definition formatPhone (value : string) : string :=
  let numbers := strip_nondigits value in
  if (String.length numbers <=? 11)%nat then replace_phone numbers else value.

Fixpoint all_digits (s : string) : bool :=
  match s with
  | EmptyString => true
  | String c r => is_digit c && all_digits r
  end.

Lemma all_digits_strip (s : string) : all_digits (strip_nondigits s) = true.
Proof.
  induction s as [|c r IH]; simpl; [reflexivity|].
  destruct (is_digit c) eqn:E; simpl; [rewrite E|]; auto.
Qed.

Lemma strip_all_digits (s : string) : all_digits s = true -> strip_nondigits s = s.
Proof.
  induction s as [|c r IH]; simpl; [reflexivity|].
  intros H; apply andb_true_iff in H as [H1 H2]; rewrite H1, IH; auto.
Qed.

Lemma take_digits_short (n : nat) (s : string) :
  (String.length s < n)%nat -> take_digits n s = None.
Proof.
  revert s; induction n as [|n IH]; intros s H; [lia|].
  destruct s as [|c r]; simpl; [reflexivity|].
  simpl in H; rewrite IH by lia; destruct (is_digit c); reflexivity.
Qed.

Lemma replace_phone_eq (s : string) :
  replace_phone s =
  match take_digits 11 s with
  | Some (d, rest) => (phone_groups d ++ rest)%string
  | None =>
      match s with
      | String c r => String c (replace_phone r)
      | EmptyString => EmptyString
      end
  end.
Proof. destruct s; reflexivity. Qed.

Lemma replace_phone_short (s : string) :
  (String.length s < 11)%nat -> replace_phone s = s.
Proof.
  induction s as [|c r IH]; intros H; [reflexivity|].
  rewrite replace_phone_eq, take_digits_short by exact H.
  simpl in H; rewrite IH by lia; reflexivity.
Qed.

Lemma append_empty_r (s : string) : (s ++ "")%string = s.
Proof. induction s as [|c r IH]; simpl; [reflexivity|rewrite IH; reflexivity]. Qed.

(** The eleven-digit case, character by character. *)
Lemma phone_eleven (n : string) :
  String.length n = 11%nat -> all_digits n = true ->
  replace_phone n = phone_groups n /\ strip_nondigits (phone_groups n) = n.
Proof.
  intros Hl Hd.
  do 11 (destruct n as [|?c n]; [discriminate|]).
  destruct n; [|discriminate].
  simpl in Hd; rewrite !andb_true_iff in Hd.
  repeat match type of Hd with ?A /\ ?B => destruct Hd as [?H Hd] end.
  split.
  - simpl; repeat match goal with H : is_digit _ = true |- _ => rewrite H; simpl end.
    rewrite ?append_empty_r; reflexivity.
  - simpl; repeat match goal with H : is_digit _ = true |- _ => rewrite H end;
      reflexivity.
Qed.

(** [formatPhone] keeps only the digits; eleven digits become
    "(DD) DDDDD-DDDD", fewer are returned bare, and with more than eleven
    digits the input is returned unchanged. Applying it again to its own
    output changes nothing, so formatting on every keystroke is stable. *)
Theorem formatPhone_spec (value : string) :
  let n := strip_nondigits value in
  (String.length n = 11%nat -> formatPhone value = phone_groups n) /\
  ((String.length n < 11)%nat -> formatPhone value = n) /\
  ((11 < String.length n)%nat -> formatPhone value = value) /\
  formatPhone (formatPhone value) = formatPhone value.
Proof.
  intros n.
  assert (Hd : all_digits n = true) by apply all_digits_strip.
  assert (Hn : strip_nondigits n = n) by (apply strip_all_digits, Hd).
  assert (C11 : String.length n = 11%nat -> formatPhone value = phone_groups n).
  { intros Hl; unfold formatPhone; fold n; rewrite Hl; simpl.
    apply (phone_eleven n Hl Hd). }
  assert (Clt : (String.length n < 11)%nat -> formatPhone value = n).
  { intros Hl; unfold formatPhone; fold n.
    replace (String.length n <=? 11)%nat with true by (symmetry; apply Nat.leb_le; lia).
    apply replace_phone_short, Hl. }
  assert (Cgt : (11 < String.length n)%nat -> formatPhone value = value).
  { intros Hl; unfold formatPhone; fold n.
    replace (String.length n <=? 11)%nat with false by (symmetry; apply Nat.leb_gt; lia).
    reflexivity. }
  split; [exact C11|split; [exact Clt|split; [exact Cgt|]]].
  destruct (Nat.lt_trichotomy (String.length n) 11) as [Hl|[Hl|Hl]].
  - rewrite Clt by exact Hl; unfold formatPhone; rewrite Hn.
    replace (String.length n <=? 11)%nat with true by (symmetry; apply Nat.leb_le; lia).
    apply replace_phone_short, Hl.
  - rewrite C11 by exact Hl; destruct (phone_eleven n Hl Hd) as [E1 E2].
    unfold formatPhone; rewrite E2, Hl; simpl; exact E1.
  - rewrite Cgt by exact Hl; exact (Cgt Hl).
Qed.

Lemma formatPhone_spec_witness :
  formatPhone "11987654321" = phone_groups (strip_nondigits "11987654321") /\
  formatPhone (formatPhone "11987654321") = formatPhone "11987654321".
Proof.
  destruct (formatPhone_spec "11987654321") as [H11 [_ [_ Hidem]]].
  split; [apply H11; reflexivity|exact Hidem].
Defined.

(** ** Card number ([formatCardNumber], Card page) *)

Fixpoint str_take (n : nat) (s : string) : string :=
  match n, s with
  | S n', String c r => String c (str_take n' r)
  | _, _ => EmptyString
  end.

Fixpoint str_drop (n : nat) (s : string) : string :=
  match n, s with
  | S n', String _ r => str_drop n' r
  | _, _ => s
  end.

Fixpoint repeat_str (n : nat) (s : string) : string :=
  match n with O => EmptyString | S n' => (s ++ repeat_str n' s)%string end.

(** [s.padStart(targetLength, padString)]: the filler repeated and cut to
    the missing length, in front of [s]. *)
Definition padStart (s : string) (targetLength : nat) (padString : string) : string :=
  let len := String.length s in
  if (targetLength <=? len)%nat then s
  else if String.eqb padString "" then s
  else let fillLen := (targetLength - len)%nat in
       (str_take fillLen (repeat_str fillLen padString) ++ s)%string.

(** ECMAScript line terminators among the code units below 256: LF, CR. *)
Definition is_line_terminator (c : Ascii.ascii) : bool :=
  char_is c 10 || char_is c 13.

(** What [.{1,4}] matches at the start of [s]: up to four characters that
    are not line terminators. *)
Fixpoint take_dots (k : nat) (s : string) : string :=
  match k, s with
  | S k', String c r =>
      if is_line_terminator c then EmptyString else String c (take_dots k' r)
  | _, _ => EmptyString
  end.

(** The matches of [/.{1,4}/g], scanning from the start of [s]; where
    nothing matches the scan moves on by one position. [fuel] bounds the
    number of positions. *)
Fixpoint match_dots4 (fuel : nat) (s : string) : list string :=
  match fuel with
  | O => []
  | S f =>
      match s with
      | EmptyString => []
      | String _ r =>
          let m := take_dots 4 s in
          if (String.length m =? 0)%nat then match_dots4 f r
          else m :: match_dots4 f (str_drop (String.length m) s)
      end
  end.

(** [arr.join(sep)] *)
Fixpoint join (sep : string) (l : list string) : string :=
  match l with
  | [] => EmptyString
  | [x] => x
  | x :: r => (x ++ sep ++ join sep r)%string
  end.

(** [formatCardNumber()]: [user?.userId.padStart(16, '4532') ||
    '4532000000000000'], then [.match(/.{1,4}/g)?.join(' ') || '']. *)
Definition formatCardNumber (usr : option Profile.t) : string :=
  let baseNumber :=
    match usr with
    | Some p =>
        let s := padStart (Profile.userId p) 16 "4532" in
        if String.eqb s ""%string then "4532000000000000"%string else s
    | None => "4532000000000000"%string
    end in
  match match_dots4 (String.length baseNumber) baseNumber with
  | [] => ""%string
  | ms => let j := join " " ms in if String.eqb j "" then ""%string else j
  end.

Fixpoint no_line_terminator (s : string) : bool :=
  match s with
  | EmptyString => true
  | String c r => negb (is_line_terminator c) && no_line_terminator r
  end.

Lemma take_dots_plain (k : nat) (s : string) :
  no_line_terminator s = true -> take_dots k s = str_take k s.
Proof.
  revert s; induction k as [|k IH]; intros s H; [destruct s; reflexivity|].
  destruct s as [|c r]; [reflexivity|]; simpl in H |- *.
  apply andb_true_iff in H as [H1 H2]; apply negb_true_iff in H1.
  rewrite H1, IH by exact H2; reflexivity.
Qed.

Lemma str_take_length (k : nat) (s : string) :
  String.length (str_take k s) = Nat.min k (String.length s).
Proof.
  revert s; induction k as [|k IH]; intros s; [reflexivity|].
  destruct s; simpl; [reflexivity|rewrite IH; reflexivity].
Qed.

Lemma str_drop_length (k : nat) (s : string) :
  String.length (str_drop k s) = (String.length s - k)%nat.
Proof.
  revert s; induction k as [|k IH]; intros s; [simpl; lia|].
  destruct s; simpl; [reflexivity|apply IH].
Qed.

Lemma str_drop_plain (k : nat) (s : string) :
  no_line_terminator s = true -> no_line_terminator (str_drop k s) = true.
Proof.
  revert s; induction k as [|k IH]; intros s H; [exact H|].
  destruct s as [|c r]; [reflexivity|]; simpl in H |- *.
  apply andb_true_iff in H as [_ H]; apply IH, H.
Qed.

Lemma match_dots4_step (f : nat) (s : string) :
  no_line_terminator s = true -> (0 < String.length s)%nat ->
  match_dots4 (S f) s =
    str_take 4 s :: match_dots4 f (str_drop (Nat.min 4 (String.length s)) s).
Proof.
  intros H Hl; destruct s as [|c r]; [simpl in Hl; lia|].
  cbn [match_dots4]; rewrite take_dots_plain by exact H.
  rewrite str_take_length; simpl String.length at 2 3.
  replace (Nat.min 4 (S (String.length r)) =? 0)%nat with false
    by (symmetry; apply Nat.eqb_neq; lia).
  reflexivity.
Qed.

Lemma str_append_length (a b : string) :
  String.length (a ++ b) = (String.length a + String.length b)%nat.
Proof. induction a; simpl; [reflexivity|rewrite IHa; reflexivity]. Qed.

Lemma no_line_terminator_app (a b : string) :
  no_line_terminator (a ++ b) = no_line_terminator a && no_line_terminator b.
Proof.
  induction a as [|c r IH]; simpl; [reflexivity|rewrite IH, andb_assoc; reflexivity].
Qed.

(** The filler in front of a short [userId]. *)
Lemma pad_prefix (k : nat) :
  (k <= 16)%nat ->
  str_take k (repeat_str k "4532") = str_take k "4532453245324532" /\
  no_line_terminator (str_take k (repeat_str k "4532")) = true /\
  String.length (str_take k (repeat_str k "4532")) = k.
Proof.
  intros Hk.
  do 17 (destruct k as [|k]; [vm_compute; repeat split; reflexivity|]).
  lia.
Qed.

(** For a [userId] of at most 16 characters without line breaks, the card
    shows 16 characters in four groups of four separated by single spaces:
    the [userId] right-aligned, preceded by the first [16 - length] digits
    of "4532453245324532". Without a user it shows "4532 0000 0000 0000". *)
Theorem formatCardNumber_spec (usr : Profile.t) :
  let u := Profile.userId usr in
  (String.length u <= 16)%nat -> no_line_terminator u = true ->
  let p := (str_take (16 - String.length u) "4532453245324532" ++ u)%string in
  String.length p = 16%nat /\
  formatCardNumber (Some usr) =
    (str_take 4 p ++ " " ++ str_take 4 (str_drop 4 p) ++ " " ++
     str_take 4 (str_drop 8 p) ++ " " ++ str_take 4 (str_drop 12 p))%string /\
  formatCardNumber None = "4532 0000 0000 0000"%string.
Proof.
  intros u Hl Hnl p.
  destruct (pad_prefix (16 - String.length u) ltac:(lia)) as [Hpre [Hpl Hlen]].
  assert (Hp : padStart u 16 "4532" = p).
  { unfold padStart, p.
    destruct (Nat.leb_spec 16 (String.length u)) as [Hge|Hlt].
    - assert (E : String.length u = 16%nat) by lia.
      rewrite E; reflexivity.
    - simpl String.eqb; cbv iota; rewrite Hpre; reflexivity. }
  assert (Hplen : String.length p = 16%nat).
  { unfold p; rewrite str_append_length, <- Hpre, Hlen; lia. }
  assert (Hpnl : no_line_terminator p = true).
  { unfold p; rewrite no_line_terminator_app, <- Hpre, Hpl, Hnl; reflexivity. }
  split; [exact Hplen|split; [|reflexivity]].
  unfold formatCardNumber; fold u; rewrite Hp.
  replace (String.eqb p "") with false
    by (symmetry; apply String.eqb_neq; intros E; rewrite E in Hplen; discriminate).
  rewrite Hplen.
  assert (L : forall k, String.length (str_drop k p) = (16 - k)%nat)
    by (intros k; rewrite str_drop_length, Hplen; reflexivity).
  assert (D : forall a b, str_drop a (str_drop b p) = str_drop (a + b) p).
  { intros a b; generalize p; clear; induction b as [|b IH]; intros s.
    - rewrite Nat.add_0_r; reflexivity.
    - destruct s as [|c r]; [destruct a; reflexivity|].
      rewrite Nat.add_succ_r; simpl; apply IH. }
  rewrite (match_dots4_step 15 p Hpnl) by lia; rewrite Hplen; cbn [Nat.min].
  rewrite (match_dots4_step 14 _ (str_drop_plain 4 p Hpnl)) by (rewrite L; lia).
  rewrite L, D; cbn [Nat.min Nat.sub Nat.add].
  rewrite (match_dots4_step 13 _ (str_drop_plain 8 p Hpnl)) by (rewrite L; lia).
  rewrite L, D; cbn [Nat.min Nat.sub Nat.add].
  rewrite (match_dots4_step 12 _ (str_drop_plain 12 p Hpnl)) by (rewrite L; lia).
  rewrite L, D; cbn [Nat.min Nat.sub Nat.add].
  assert (E16 : str_drop 16 p = EmptyString).
  { pose proof (L 16%nat) as L16; destruct (str_drop 16 p); [reflexivity|simpl in L16; lia]. }
  rewrite E16; cbn [match_dots4 join].
  destruct (str_take 4 p); reflexivity.
Qed.

Lemma formatCardNumber_spec_witness :
  let usr := Profile.mk 1 "123456" "Ana" zero (lit 5000) zero None in
  formatCardNumber (Some usr) = "4532 4532 4512 3456"%string /\
  formatCardNumber None = "4532 0000 0000 0000"%string.
Proof.
  intros usr.
  destruct (formatCardNumber_spec usr ltac:(vm_compute; lia) eq_refl)
    as [_ [E N]].
  rewrite E, N; split; reflexivity.
Defined.

(** ** The app's writes to the store *)

(** One write of the app to its store: sign-in or registration through
    [login], a confirmation through [confirmTransaction], or the card's
    [loadData] (which writes nothing). These are the only callers of the
    store's writers [createProfile] and [addTransaction]; [updateProfile]
    has no caller. *)
Inductive app_step : DB -> DB -> Prop :=
| step_login (st : AuthState) (u : string) (name : option string)
    (ib cl : option num) :
    app_step (auth_db st) (auth_db (snd (login st u name ib cl)))
| step_confirm (s : Session) (ui : ConfirmUI) (now : Z) :
    app_step (store s) (store (snd (confirmTransaction s ui now)))
| step_loadData (cs : CardState) :
    app_step (store (session cs)) (store (session (loadData cs))).

(** The stores the app reaches from an empty database. *)
Inductive app_reachable : DB -> Prop :=
| app_empty : app_reachable empty_db
| app_next (db db' : DB) : app_reachable db -> app_step db db' -> app_reachable db'.

(** A run of the app's writes from one store to another. *)
Inductive app_run : DB -> DB -> Prop :=
| run_done (db : DB) : app_run db db
| run_step (db db' db'' : DB) : app_step db db' -> app_run db' db'' -> app_run db db''.

(** A credit counter the app can hold: a non-negative number or +Infinity. *)
Definition used_ok (x : num) : Prop :=
  match x with Fin c => (0 <= c)%Qc | PInf => True | _ => False end.

(** A profile's credit fields as the app leaves them: a truthy limit and a
    counter that is a non-negative number or +Infinity. *)
Definition credit_ok (p : Profile.t) : Prop :=
  num_truthy (Profile.creditLimit p) = true /\ used_ok (Profile.creditUsed p).

(** An amount that passed [isNaN(finalAmount) || finalAmount <= 0]. *)
Definition amount_ok (a : num) : Prop := isNaN a = false /\ num_le a zero = false.

Lemma confirmTransaction_store (s : Session) (ui : ConfirmUI) (now : Z) :
  store (snd (confirmTransaction s ui now)) = store s \/
  exists usr pt, pendingTransaction ui = Some pt /\
    amount_ok (final_amount ui pt) /\
    store (snd (confirmTransaction s ui now)) =
      snd (addTransaction (store s) (confirmed_tx usr pt (final_amount ui pt) now)).
Proof.
  unfold confirmTransaction.
  destruct (pendingTransaction ui) as [pt|]; [|left; reflexivity].
  destruct (user s) as [usr|]; [|left; reflexivity].
  cbv zeta.
  destruct (isNaN (final_amount ui pt)) eqn:En; [left; reflexivity|].
  destruct (num_le (final_amount ui pt) zero) eqn:El; [left; reflexivity|].
  cbn [orb].
  assert (C : store (snd (commit s usr pt (final_amount ui pt) now)) =
              snd (addTransaction (store s) (confirmed_tx usr pt (final_amount ui pt) now)))
    by apply commit_fst.
  assert (R : exists usr0 pt0, Some pt = Some pt0 /\
                amount_ok (final_amount ui pt0) /\
                store (snd (commit s usr pt (final_amount ui pt) now)) =
                snd (addTransaction (store s) (confirmed_tx usr0 pt0 (final_amount ui pt0) now)))
    by (exists usr, pt; split; [reflexivity|split; [split; assumption|exact C]]).
  destruct (pt_type pt), (pt_paymentMethod pt); try (right; exact R).
  destruct (num_gt _ _); [left; reflexivity|right; exact R].
Qed.

Lemma app_reachable_reachable (db : DB) : app_reachable db -> reachable db.
Proof.
  induction 1 as [|db db' _ IH Hs]; [constructor|].
  revert IH; destruct Hs as [st u name ib cl|s ui now|cs]; intros IH.
  - destruct st as [u0 s0 db0]; apply reach_login, IH.
  - destruct (confirmTransaction_store s ui now) as [E|(usr & pt & _ & _ & E)];
      rewrite E; [exact IH|apply reach_add, IH].
  - rewrite (proj1 (loadData_store_unchanged cs)); exact IH.
Qed.

Lemma num_le_ok_refl (x : num) : used_ok x -> num_le x x = true.
Proof.
  destruct x as [c| | |]; simpl; intros H; try contradiction; try reflexivity.
  apply num_le_fin, Qcle_refl.
Qed.

Lemma num_le_ok_trans (x y z : num) :
  used_ok x -> used_ok y -> used_ok z ->
  num_le x y = true -> num_le y z = true -> num_le x z = true.
Proof.
  destruct x as [a| | |], y as [b| | |], z as [c| | |]; simpl;
    intros Hx Hy Hz Hxy Hyz; try contradiction; try discriminate; try reflexivity.
  apply num_le_fin; eapply Qcle_trans; apply num_gt_fin_false;
    apply negb_true_iff; eassumption.
Qed.

(** The counter written by [addTransaction]: [(creditUsed || 0) + amount]. *)
Lemma credit_bump (x a : num) :
  used_ok x -> amount_ok a ->
  num_le x (num_add (num_or x zero) a) = true /\ used_ok (num_add (num_or x zero) a).
Proof.
  intros Hx [Hn Hl].
  destruct x as [c| | |]; simpl in Hx; try contradiction.
  - rewrite num_or_fin.
    destruct a as [b| | |]; simpl in Hn; try discriminate.
    + assert (Hb : (0 < b)%Qc).
      { unfold num_le, zero in Hl; apply negb_false_iff, num_gt_fin in Hl; exact Hl. }
      simpl; split.
      * apply num_le_fin.
        rewrite <- (Qcplus_0_r c) at 1; apply Qcplus_le_compat;
          [apply Qcle_refl|apply Qclt_le_weak, Hb].
      * rewrite <- (Qcplus_0_r 0%Qc); apply Qcplus_le_compat;
          [exact Hx|apply Qclt_le_weak, Hb].
    + split; [reflexivity|exact I].
  - destruct a as [b| | |]; simpl in Hn, Hl |- *; try discriminate;
      (split; [reflexivity|exact I]).
Qed.

Lemma addTransaction_credit (db : DB) (tx : Transaction.t) :
  NoDup (profile_ids db) -> Forall credit_ok (profiles db) ->
  amount_ok (Transaction.amount tx) ->
  Forall credit_ok (profiles (snd (addTransaction db tx))) /\
  (forall p, In p (profiles db) ->
     exists p', In p' (profiles (snd (addTransaction db tx))) /\
       Profile.id p' = Profile.id p /\ Profile.userId p' = Profile.userId p /\
       num_le (Profile.creditUsed p) (Profile.creditUsed p') = true).
Proof.
  intros Hnd Hok Ha.
  assert (Same : Forall credit_ok (profiles db) /\
    (forall p, In p (profiles db) ->
       exists p', In p' (profiles db) /\ Profile.id p' = Profile.id p /\
         Profile.userId p' = Profile.userId p /\
         num_le (Profile.creditUsed p) (Profile.creditUsed p') = true)).
  { split; [exact Hok|]; intros p Hp; exists p; repeat split; auto.
    rewrite Forall_forall in Hok; apply num_le_ok_refl, (Hok p Hp). }
  unfold addTransaction.
  destruct (Transaction.type tx), (Transaction.paymentMethod tx) as [[|]|];
    try exact Same.
  destruct (getProfile db (Transaction.userId tx)) as [q|] eqn:Hq; [|exact Same].
  destruct (negb (Profile.id q =? 0)); [|exact Same].
  rewrite profiles_add_tx; unfold update_creditUsed; cbn [profiles].
  assert (Hqin : In q (profiles db)) by (apply (find_some _ _ Hq)).
  rewrite Forall_forall in Hok.
  destruct (credit_bump (Profile.creditUsed q) (Transaction.amount tx)
              (proj2 (Hok q Hqin)) Ha) as [Hle Hv].
  split.
  - apply Forall_forall; intros p' Hp'; apply in_map_iff in Hp' as [p [<- Hp]].
    destruct (Z.eqb_spec (Profile.id p) (Profile.id q)) as [E|E].
    + rewrite (nodup_ids_inj _ p q Hnd Hp Hqin E).
      split; [apply (Hok q Hqin)|exact Hv].
    + apply Hok, Hp.
  - intros p Hp.
    destruct (Z.eqb_spec (Profile.id p) (Profile.id q)) as [E|E].
    + rewrite (nodup_ids_inj _ p q Hnd Hp Hqin E).
      exists (Profile.set_creditUsed q
                (num_add (num_or (Profile.creditUsed q) zero) (Transaction.amount tx))).
      split; [|split; [reflexivity|split; [reflexivity|exact Hle]]].
      apply in_map_iff; exists q; rewrite Z.eqb_refl; split; [reflexivity|exact Hqin].
    + exists p; split; [|split; [reflexivity|split;
        [reflexivity|apply num_le_ok_refl, (Hok p Hp)]]].
      apply in_map_iff; exists p; apply Z.eqb_neq in E; rewrite E; auto.
Qed.

(** [login] keeps every stored profile as it is and may append one whose
    limit is [creditLimit || 5000] and whose counter is 0. *)
Lemma login_profiles (st : AuthState) (u : string) (name : option string)
  (ib cl : option num) :
  profiles (auth_db (snd (login st u name ib cl))) = profiles (auth_db st) \/
  exists p, profiles (auth_db (snd (login st u name ib cl))) =
              (profiles (auth_db st) ++ [p])%list /\ credit_ok p /\
            Profile.creditUsed p = zero.
Proof.
  unfold login.
  destruct (getProfile (auth_db st) u) as [p|]; [left; reflexivity|].
  destruct name as [n|]; [|left; destruct (auth_user st); reflexivity].
  destruct (String.eqb n ""); [left; destruct (auth_user st); reflexivity|].
  right; unfold createProfile; cbn [snd].
  eexists; split.
  - destruct (getProfile _ _); reflexivity.
  - split; [split|reflexivity].
    + simpl; unfold opt_or; destruct cl as [c|]; [|reflexivity].
      unfold num_or; destruct (num_truthy c) eqn:Ec; [exact Ec|reflexivity].
    + simpl; apply Qcle_refl.
Qed.

Lemma app_reachable_credit (db : DB) :
  app_reachable db -> Forall credit_ok (profiles db).
Proof.
  intros H; pose proof (app_reachable_reachable db H) as Hr.
  induction H as [|db db' Hdb IH Hs]; [constructor|].
  specialize (IH (app_reachable_reachable db Hdb)).
  destruct (reachable_wf db (app_reachable_reachable db Hdb)) as [Hnd _].
  revert IH Hnd Hr; destruct Hs as [st u name ib cl|s ui now|cs]; intros IH Hnd Hr.
  - destruct (login_profiles st u name ib cl) as [E|(p & E & Hp & _)]; rewrite E;
      [exact IH|apply Forall_app; split; [exact IH|constructor; [exact Hp|constructor]]].
  - destruct (confirmTransaction_store s ui now) as [E|(usr & pt & _ & Ha & E)];
      rewrite E; [exact IH|].
    exact (proj1 (addTransaction_credit _
      (confirmed_tx usr pt (final_amount ui pt) now) Hnd IH Ha)).
  - rewrite (proj1 (loadData_store_unchanged cs)); exact IH.
Qed.

Lemma app_step_monotone (db db' : DB) :
  app_reachable db -> app_step db db' ->
  forall p, In p (profiles db) ->
    exists p', In p' (profiles db') /\ Profile.id p' = Profile.id p /\
      Profile.userId p' = Profile.userId p /\
      num_le (Profile.creditUsed p) (Profile.creditUsed p') = true.
Proof.
  intros Hdb Hs.
  pose proof (app_reachable_credit db Hdb) as Hok.
  destruct (reachable_wf db (app_reachable_reachable db Hdb)) as [Hnd _].
  assert (Keep : forall l, (forall p, In p (profiles db) -> In p l) ->
            forall p, In p (profiles db) ->
              exists p', In p' l /\ Profile.id p' = Profile.id p /\
                Profile.userId p' = Profile.userId p /\
                num_le (Profile.creditUsed p) (Profile.creditUsed p') = true).
  { intros l Hl p Hp; exists p; repeat split; auto.
    rewrite Forall_forall in Hok; apply num_le_ok_refl, (Hok p Hp). }
  revert Hok Hnd Keep; destruct Hs as [st u name ib cl|s ui now|cs];
    intros Hok Hnd Keep.
  - apply Keep; intros p Hp.
    destruct (login_profiles st u name ib cl) as [E|(q & E & _)]; rewrite E;
      [exact Hp|apply in_or_app; left; exact Hp].
  - destruct (confirmTransaction_store s ui now) as [E|(usr & pt & _ & Ha & E)];
      rewrite E; [apply Keep; auto|].
    exact (proj2 (addTransaction_credit _
      (confirmed_tx usr pt (final_amount ui pt) now) Hnd Hok Ha)).
  - rewrite (proj1 (loadData_store_unchanged cs)); apply Keep; auto.
Qed.

Lemma app_run_reachable (db db' : DB) :
  app_reachable db -> app_run db db' -> app_reachable db'.
Proof.
  intros Hdb Hrun; induction Hrun as [db|db db1 db2 Hs _ IH]; [exact Hdb|].
  apply IH; eapply app_next; eassumption.
Qed.

Lemma app_run_monotone (db db' : DB) :
  app_reachable db -> app_run db db' ->
  forall p, In p (profiles db) ->
    exists p', In p' (profiles db') /\ Profile.id p' = Profile.id p /\
      Profile.userId p' = Profile.userId p /\
      num_le (Profile.creditUsed p) (Profile.creditUsed p') = true.
Proof.
  intros Hdb Hrun; revert Hdb.
  induction Hrun as [db|db db1 db2 Hs Hrun IH]; intros Hdb p Hp.
  - exists p; repeat split; auto.
    pose proof (app_reachable_credit db Hdb) as Hok; rewrite Forall_forall in Hok.
    apply num_le_ok_refl, (Hok p Hp).
  - destruct (app_step_monotone db db1 Hdb Hs p Hp) as (p1 & Hp1 & I1 & U1 & L1).
    assert (Hdb1 : app_reachable db1) by (eapply app_next; eassumption).
    destruct (IH Hdb1 p1 Hp1) as (p2 & Hp2 & I2 & U2 & L2).
    exists p2; split; [exact Hp2|split; [congruence|split; [congruence|]]].
    pose proof (app_reachable_credit db Hdb) as Ok0.
    pose proof (app_reachable_credit db1 Hdb1) as Ok1.
    assert (Hdb2 : app_reachable db2) by (exact (app_run_reachable db1 db2 Hdb1 Hrun)).
    pose proof (app_reachable_credit db2 Hdb2) as Ok2.
    rewrite Forall_forall in Ok0, Ok1, Ok2.
    apply (num_le_ok_trans _ (Profile.creditUsed p1));
      [apply Ok0, Hp|apply Ok1, Hp1|apply Ok2, Hp2|exact L1|exact L2].
Qed.

Lemma app_step_cases (db db' : DB) :
  app_step db db' ->
  profiles db' = profiles db \/
  (exists p, profiles db' = (profiles db ++ [p])%list /\ Profile.creditUsed p = zero) \/
  (exists tx, db' = snd (addTransaction db tx)).
Proof.
  destruct 1 as [st u name ib cl|s ui now|cs].
  - destruct (login_profiles st u name ib cl) as [E|(p & E & _ & Hz)];
      [left; exact E|right; left; exists p; split; [exact E|exact Hz]].
  - destruct (confirmTransaction_store s ui now) as [E|(usr & pt & _ & _ & E)];
      [left; rewrite E; reflexivity|right; right; eexists; exact E].
  - left; rewrite (proj1 (loadData_store_unchanged cs)); reflexivity.
Qed.

Lemma used_pos_keep (x y : num) :
  used_ok x -> used_ok y -> num_le x y = true ->
  num_gt x zero = true -> num_gt y zero = true.
Proof.
  destruct x as [a| | |], y as [b| | |]; simpl; intros Hx Hy Hxy Hpos;
    try contradiction; try discriminate; try reflexivity.
  apply num_gt_fin; apply num_gt_fin in Hpos.
  apply (Qclt_le_trans _ a); [exact Hpos|].
  apply num_gt_fin_false; apply negb_true_iff; exact Hxy.
Qed.

Lemma availableCredit_stored (usr : Profile.t) :
  credit_ok usr ->
  availableCredit usr = num_sub (Profile.creditLimit usr) (Profile.creditUsed usr).
Proof.
  intros [Hl Hu]; unfold availableCredit.
  unfold num_or at 1; rewrite Hl; f_equal.
  destruct (Profile.creditUsed usr) as [c| | |]; simpl in Hu; try contradiction.
  - apply num_or_fin.
  - reflexivity.
Qed.

(** C3 (amended). The code has no credit-cycle rollover: nothing resets
    [creditUsed] when a due date passes. The card's check [loadData]
    reads no clock and leaves the store as it is, however often it runs,
    and shows the stored [creditUsed || 0]. Each write of the app keeps the
    profiles table, appends a profile with [creditUsed = 0] (registration),
    or is one [addTransaction]. Along any run of these writes from a store
    the app reached, every profile keeps its key and [userId] and its
    [creditUsed] never decreases; a positive [creditUsed] stays positive. *)
Theorem creditUsed_never_reset :
  (forall cs n, store (session (Nat.iter n loadData cs)) = store (session cs)) /\
  (forall cs usr p, user (session cs) = Some usr ->
     getProfile (store (session cs)) (Profile.userId usr) = Some p ->
     card_creditUsed (loadData cs) = num_or (Profile.creditUsed p) zero) /\
  (forall db db', app_step db db' ->
     profiles db' = profiles db \/
     (exists p, profiles db' = (profiles db ++ [p])%list /\
                Profile.creditUsed p = zero) \/
     (exists tx, db' = snd (addTransaction db tx))) /\
  (forall db db', app_reachable db -> app_run db db' ->
     forall p, In p (profiles db) ->
     exists p', In p' (profiles db') /\ Profile.id p' = Profile.id p /\
       Profile.userId p' = Profile.userId p /\
       num_le (Profile.creditUsed p) (Profile.creditUsed p') = true /\
       (num_gt (Profile.creditUsed p) zero = true ->
        num_gt (Profile.creditUsed p') zero = true)).
Proof.
  split; [|split; [|split]].
  - intros cs; exact (proj1 (proj2 (loadData_store_unchanged cs))).
  - intros cs; exact (proj2 (proj2 (loadData_store_unchanged cs))).
  - exact app_step_cases.
  - intros db db' Hdb Hrun p Hp.
    destruct (app_run_monotone db db' Hdb Hrun p Hp) as (p' & Hp' & I & U & L).
    exists p'; repeat split; try assumption.
    pose proof (app_reachable_credit db Hdb) as Ok.
    pose proof (app_reachable_credit db' (app_run_reachable db db' Hdb Hrun)) as Ok'.
    rewrite Forall_forall in Ok, Ok'.
    apply used_pos_keep with (x := Profile.creditUsed p);
      [apply Ok, Hp|apply Ok', Hp'|exact L].
Qed.

(** A run of the app: [Ana] registers as user "1" with limit 5000, then
    confirms a credit expense of 300 and one of 200. *)
Definition ana : Profile.t := Profile.mk 1 "1" "Ana" (lit 1000) (lit 5000) zero None.

Definition run_db0 : DB :=
  auth_db (snd (login (mkAuth None None empty_db) "1" (Some "Ana"%string)
                 (Some (lit 1000)) (Some (lit 5000)))).

Definition run_s0 : Session := mkSession (Some ana) run_db0.

Definition run_s1 : Session :=
  snd (confirmTransaction run_s0 (ui_of (pending_of 300 Expense Credit "food")) 1).

Definition run_db2 : DB :=
  store (snd (confirmTransaction run_s1 (ui_of (pending_of 200 Expense Credit "food")) 2)).

Definition first_profile (db : DB) : Profile.t :=
  match profiles db with p :: _ => p | [] => ana end.

Lemma run_db0_reachable : app_reachable run_db0.
Proof.
  exact (app_next _ _ app_empty
           (step_login (mkAuth None None empty_db) "1" (Some "Ana"%string)
              (Some (lit 1000)) (Some (lit 5000)))).
Qed.

Lemma creditUsed_never_reset_witness :
  app_reachable (store run_s1) /\ app_run (store run_s1) run_db2 /\
  In (first_profile (store run_s1)) (profiles (store run_s1)) /\
  num_gt (Profile.creditUsed (first_profile (store run_s1))) zero = true /\
  exists p', In p' (profiles run_db2) /\
    Profile.id p' = Profile.id (first_profile (store run_s1)) /\
    Profile.userId p' = Profile.userId (first_profile (store run_s1)) /\
    num_le (Profile.creditUsed (first_profile (store run_s1)))
           (Profile.creditUsed p') = true /\
    (num_gt (Profile.creditUsed (first_profile (store run_s1))) zero = true ->
     num_gt (Profile.creditUsed p') zero = true).
Proof.
  assert (H1 : app_reachable (store run_s1))
    by exact (app_next _ _ run_db0_reachable
                (step_confirm run_s0 (ui_of (pending_of 300 Expense Credit "food")) 1)).
  assert (H2 : app_run (store run_s1) run_db2)
    by exact (run_step _ _ _
                (step_confirm run_s1 (ui_of (pending_of 200 Expense Credit "food")) 2)
                (run_done _)).
  assert (H3 : In (first_profile (store run_s1)) (profiles (store run_s1)))
    by (vm_compute; left; reflexivity).
  split; [exact H1|split; [exact H2|split; [exact H3|split]]].
  - vm_compute; reflexivity.
  - exact (proj2 (proj2 (proj2 creditUsed_never_reset))
             (store run_s1) run_db2 H1 H2 (first_profile (store run_s1)) H3).
Defined.

(** C4. At every store the app reaches, with the user snapshot equal to
    the stored profile, a valid (non-NaN, positive) pending credit-method
    expense is refused with the available credit and the session (hence
    the store) unchanged exactly when its amount exceeds
    [creditLimit - creditUsed]; otherwise it is committed through one
    [addTransaction]. [availableCredit]'s defaults ([|| 5000], [|| 0])
    never apply there: every stored limit is truthy and every counter is
    0, positive or +Infinity. Spec scenario 2 evaluates as stated. *)
Theorem confirmTransaction_credit_check (s : Session) (ui : ConfirmUI) (now : Z)
  (usr : Profile.t) (pt : PendingTransaction) :
  app_reachable (store s) ->
  user s = Some usr ->
  getProfile (store s) (Profile.userId usr) = Some usr ->
  pendingTransaction ui = Some pt ->
  pt_type pt = Expense -> pt_paymentMethod pt = Credit ->
  isNaN (final_amount ui pt) = false -> num_le (final_amount ui pt) zero = false ->
  let available := num_sub (Profile.creditLimit usr) (Profile.creditUsed usr) in
  availableCredit usr = available /\
  (num_gt (final_amount ui pt) available = true ->
     confirmTransaction s ui now = (InsufficientCredit available, s)) /\
  (num_gt (final_amount ui pt) available = false ->
     let tx := confirmed_tx usr pt (final_amount ui pt) now in
     fst (confirmTransaction s ui now) = Recorded (fst (addTransaction (store s) tx)) /\
     store (snd (confirmTransaction s ui now)) = snd (addTransaction (store s) tx)) /\
  scenario2 = (Recorded 1, InsufficientCredit (lit 4700), lit 300).
Proof.
  intros Hdb Hu Hp Hpt Hty Hpm Hn Hl available.
  assert (Ok : credit_ok usr).
  { pose proof (app_reachable_credit _ Hdb) as Ok; rewrite Forall_forall in Ok.
    apply Ok, (find_some _ _ Hp). }
  assert (Av : availableCredit usr = available) by (apply availableCredit_stored, Ok).
  split; [exact Av|split; [|split]].
  - intros Hgt; unfold confirmTransaction; rewrite Hpt, Hu; cbv zeta.
    rewrite Hn, Hl; cbn [orb]; rewrite Hty, Hpm, Av, Hgt; reflexivity.
  - intros Hgt tx; destruct (commit_fst s usr pt (final_amount ui pt) now) as [F S].
    unfold confirmTransaction; rewrite Hpt, Hu; cbv zeta.
    rewrite Hn, Hl; cbn [orb]; rewrite Hty, Hpm, Av, Hgt; exact (conj F S).
  - unfold scenario2; num_lit.
Qed.

Lemma confirmTransaction_credit_check_witness :
  let ui := ui_of (pending_of 300 Expense Credit "food") in
  let available := num_sub (Profile.creditLimit ana) (Profile.creditUsed ana) in
  availableCredit ana = available /\
  (num_gt (final_amount ui (pending_of 300 Expense Credit "food")) available = true ->
     confirmTransaction run_s0 ui 1 = (InsufficientCredit available, run_s0)) /\
  (num_gt (final_amount ui (pending_of 300 Expense Credit "food")) available = false ->
     let tx := confirmed_tx ana (pending_of 300 Expense Credit "food")
                 (final_amount ui (pending_of 300 Expense Credit "food")) 1 in
     fst (confirmTransaction run_s0 ui 1) = Recorded (fst (addTransaction run_db0 tx)) /\
     store (snd (confirmTransaction run_s0 ui 1)) = snd (addTransaction run_db0 tx)) /\
  scenario2 = (Recorded 1, InsufficientCredit (lit 4700), lit 300).
Proof.
  apply (confirmTransaction_credit_check run_s0 (ui_of (pending_of 300 Expense Credit "food"))
           1 ana (pending_of 300 Expense Credit "food")).
  - exact run_db0_reachable.
  - reflexivity.
  - vm_compute; reflexivity.
  - reflexivity.
  - reflexivity.
  - reflexivity.
  - reflexivity.
  - vm_compute; reflexivity.
Defined.

(** ** The credit check in binary64 *)

(** [floor(n / (d * 2^e))] with its remainder and divisor, for [n, d > 0]. *)
Definition scaled_floor (n d e : Z) : Z * Z * Z :=
  if 0 <=? e then (n / (d * 2 ^ e), n mod (d * 2 ^ e), d * 2 ^ e)
  else ((n * 2 ^ (- e)) / d, (n * 2 ^ (- e)) mod d, d).

(** Round [n / d > 0] to 53 significant bits, ties to even: a significand
    [m] in [[2^52, 2^53]] and an exponent [e], the double being [m * 2^e].
    [e0] puts [n / d / 2^e0] in [[2^51, 2^53)]; one step down when it is
    below [2^52]. Values stay in the normal range in what follows. *)
Definition round_pos (n d : Z) : Z * Z :=
  let e0 := Z.log2 n - Z.log2 d - 52 in
  let e := if fst (fst (scaled_floor n d e0)) <? 2 ^ 52 then e0 - 1 else e0 in
  let '(m, r, den) := scaled_floor n d e in
  let m' := match Z.compare (2 * r) den with
            | Lt => m
            | Gt => m + 1
            | Eq => if Z.even m then m else m + 1
            end in
  (m', e).

Definition pow2Q (m e : Z) : Q :=
  if 0 <=? e then inject_Z (m * 2 ^ e) else Qmake m (Z.to_pos (2 ^ (- e))).

(** The double nearest to a rational (round to nearest, ties to even). *)
Definition b64 (q : Q) : Q :=
  match Qnum q with
  | Z0 => 0%Q
  | Zpos n => let '(m, e) := round_pos (Zpos n) (Zpos (Qden q)) in pow2Q m e
  | Zneg n => let '(m, e) := round_pos (Zpos n) (Zpos (Qden q)) in pow2Q (- m) e
  end.

(** The credit branch of [confirmTransaction] and [addTransaction]'s update
    in binary64, for a truthy limit and counter (so the [||] defaults do not
    apply): [availableCredit = creditLimit - creditUsed]; refused when
    [finalAmount > availableCredit]; otherwise the stored counter becomes
    [creditUsed + amount]. [None] is the refusal. *)
Definition confirm_credit64 (creditLimit creditUsed finalAmount : Q) : option Q :=
  let availableCredit := b64 (creditLimit - creditUsed) in
  if negb (Qle_bool finalAmount availableCredit) then None
  else Some (b64 (creditUsed + finalAmount)).

(** C5 (code bug, binary64). A limit registered as "1000.16", a first
    credit expense of 330.93 (stored counter [(0 || 0) + 330.93]), then a
    credit expense of 669.23: the available credit rounds to exactly
    669.23, so the check passes, and the new counter
    [330.93 + 669.23] rounds to 1000.1600000000001, above the limit. *)
Theorem credit_check_rounding_binary64 :
  let creditLimit := b64 (100016 # 100) in
  let creditUsed := b64 (0 + b64 (33093 # 100)) in
  let finalAmount := b64 (66923 # 100) in
  Qeq_bool (b64 (creditLimit - creditUsed)) finalAmount = true /\
  confirm_credit64 creditLimit creditUsed finalAmount =
    Some (b64 (creditUsed + finalAmount)) /\
  Qeq_bool (b64 (creditUsed + finalAmount)) (4398750198545777 # 4398046511104) = true /\
  Qle_bool (b64 (creditUsed + finalAmount)) creditLimit = false.
Proof.
  split; [|split; [|split]]; vm_compute; reflexivity.
Qed.
